(* ===== verification/_CoqProject ===== *)
-Q . S2P
Prelude.v
JsString.v
Types.v
PetContext.v
Unicode.v
MainScreen.v
Modes.v
Reachable.v
View.v
Scenarios.v
