(* ===== verification/Prelude.v ===== *)
(** * FluentPet: a verification development of the pet registry app

    The program (src/fluent-pet-fe-challenge-main/src) is a React Native
    screen over an in-memory list of pets.  It has four parts:

    - [types/index.ts]: the records [Pet], [PetCategory] and
      [PetOperationResponse];
    - [constants/index.ts]: the table [PetCategories] (species to breeds);
    - [context/PetContext.tsx]: the [PetProvider] component, which owns the
      list of pets in a [useState] hook and exposes [addPet], [updatePet],
      [deletePet] and [searchPets] through a React context
      ([PetContextType]); [usePetContext] reads that context;
    - [screens/MainScreen.tsx]: the one screen; its form fields are
      [useState] hooks, its event handlers ([handleSubmit],
      [validateFields], [clearFields], the Edit, Delete, Cancel and species
      and breed buttons, the [onChangeText] callbacks) call the context's
      operations, and a [useEffect] clears the form when editing ends.

    The screen calls the provider only through the context value, and the
    provider's operations act on the list of pets captured by the render
    that produced them: every setter ([setPets], [setName], ...) only
    queues a new value, which React commits after the handler returns.

    ** Files of the development

    - [Prelude] (this file): the notation scope [fluentpet_scope] (JS strict
      equality [===] and [!==] as [bool_decide]), the hint database
      [fluentpet], the tactics of the development and the generic lemmas on
      [List.filter], [List.map] and [NoDup] that the components share.
    - [JsString]: JS strings as lists of UTF-16 code units; the runtime
      functions the code calls ([String.prototype.includes],
      [toUpperCase] as the class [ToUpperCase] with an ASCII instance,
      [age.replace(/[^0-9]/g, '')], [Number.prototype.toString] on the
      integer [Date.now()] and JS truthiness for [||]).
    - [Types]: [Pet], [PetCategory], [PetOperationResponse] and the
      constants [PetCategories] and [SpeciesOptions].
    - [PetContext]: the provider's operations as pure functions of the
      rendered list, each returning the value it passes to [setPets]; the
      contract of the context as the class [PetContextSpec] (the abstract
      specification of the registry) and the theorem that [PetProvider]
      implements it; invariants (case-insensitive name uniqueness, id
      uniqueness), functional behaviour, idempotence of delete and search
      correctness.
    - [Unicode]: [toUpperCase] as the full Unicode case mapping of the
      blocks U+0000-U+017F, and Unicode case folding as the reference of
      the specification's case-insensitive comparison.
    - [MainScreen]: the screen's state as a record of its hooks, every
      setter call as a value of [Update] applied in order at commit, every
      handler as the list of updates it queues, the [useEffect], the
      rendered list and breed buttons, and the app as a step relation on
      (provider state, screen state, clock) with reachability; its
      theorems are proved against [PetContextSpec] and hold for the real
      provider.
    - [Reachable]: invariants of the reachable states, by induction on
      [reachable], and the concrete runs that reach states the
      specification excludes.
    - [Modes]: the add/edit machine of the specification (section 4) as
      the step relation [mode_step] on the abstract [Mode], the
      abstraction [mode] of a screen state ([editingPet], line 34), the
      refinement theorem and the termination of the render loop.
    - [View]: the returned JSX (MainScreen.tsx lines 71-98, 132-269) as
      [render], a function from the context value and the screen state to
      a [View] record of the texts and controls shown; [None] when the
      breed lookup throws.
    - [Scenarios]: whole traces through [run], built on [Reachable]:
      leaving Edit mode, typing and submitting, the scenarios of section 8
      of the specification.

    ** What the theorems show

    - Registry ([PetContext], C1-C10): [addPet] keeps names unique up to
      [toUpperCase], rejects a collision without writing and otherwise
      appends; [updatePet] replaces in place by id, always reports
      success (also for an unknown id) and can create a duplicate name
      (C6, a counterexample); [deletePet] keeps exactly the other pets in
      order; [searchPets] is a case-insensitive substring filter and
      returns everything for the empty query; ids stay distinct under
      update and delete.  [PetProvider_laws] shows that [PetProvider]
      meets the contract [PetContextSpec] the screen is proved against.
    - Screen handlers ([MainScreen], C11-C16): a rejected add keeps the
      form; an accepted add appends and clears; a submit in edit mode
      updates and the effect clears the form; Cancel clears; an invalid
      submit only sets the field messages; the [FlatList] data equals
      [searchPets] of the query.
    - Reachable states ([Reachable], C17-C19, C21-C23), by induction on
      [reachable]: ids are distinct while the clock strictly increases,
      but one millisecond read twice gives two pets one id; ages are digit
      strings; no pet ever has a category; editing can create two names
      equal up to [toUpperCase]; switching species keeps a breed of the
      old species.
    - Case mapping ([Unicode], C20): with the Unicode [toUpperCase],
      [addPet] refuses a Latin-1 name exactly when a registered Latin-1
      name folds to the same string; beyond Latin-1 the check is coarser
      ("ı" collides with "i").  The per-unit tables are decided by
      evaluation over the 256 Latin-1 units and agree with Python's
      Unicode tables on all 384 units of the three blocks.
    - Runtime ([JsString], C24): the age filter keeps digits only and is
      idempotent.  The decimal text of [Date.now()] is injective
      ([number_to_string_inj]), which the id invariant C17 uses.
    - Mode machine ([Modes], C25): every offered event moves [mode] along
      [mode_step], Edit loads the pet's fields, a valid submit in Edit
      mode returns to Add mode, and leaving Edit mode leaves the fields
      empty (a simulation).
    - Render ([View], C26-C29, C34): after a rejected add, an invalid
      submit, Edit and Cancel, the header, submit label, Cancel button,
      input values and red messages are what the specification
      describes; in every reachable state the render does not throw,
      header, label and Cancel agree with [editingPet], and every listed
      item renders a registered pet (composition of [View], [Reachable]
      and the contract of the context).
    - Traces ([Scenarios], C30-C33): from every state a pet with a fresh
      name can be added (liveness); a run grows the registry by at most
      its number of submits and only Delete shrinks it (bounds); every
      registered pet has a non-empty id, name, age and description (type
      invariant); a submit on a pet deleted while being edited reports
      success and drops the edit.

    ** Bounds and modelling choices

    Nothing loops: every operation is a structural recursion over a finite
    list, so no fuel is needed; [run] recurses on the list of events.  The
    one loop of the runtime, effect after commit, stops after one round:
    the effect's updates never touch [editingPet], the state it depends
    on, so [dispatch] runs it once.
    Clock values are [N]; [number_to_string] is exact for integers below
    [10^21], which covers [Date.now()] (about [1.7 * 10^12]).  Strings are
    lists of UTF-16 code units in [Z]; [toUpperCase] is abstract (any
    mapping that keeps the empty string), instantiated by ASCII upper
    casing in the concrete scenarios.  The effect compares [editingPet]
    structurally where React uses [Object.is]; the two differ only between
    two defined values, where the effect does nothing.

    ** Not modelled

    The [StyleSheet] (lines 272-351 of MainScreen.tsx) and the layout of
    the JSX tree are presentation only; the tree is reduced to the texts
    and controls it shows ([View.render]) and the events it offers
    ([enabled]); static labels ("Pet name *", placeholders) are left out.
    [RootStackParamList] is declared ([Types]) but no code reads it.  The
    import lines of the three source files and the component tree that
    mounts [MainScreen] under a [PetProvider] (not in src/) carry no
    behaviour: the screen is modelled inside a provider, and outside one
    [usePetContext] on [PetContext_default] gives the thrown error.
    React's reconciler and [FlatList] are library code; only the
    semantics of setters (queued, applied in order) and of [useEffect]
    are modelled.  Case mapping above U+017F is left abstract (the
    class [ToUpperCase]): the tables of the remaining scripts add no
    behaviour of this program.

    ** Status

    Every line of src/ but the styles and the imports is mapped, and each
    component the code has is modelled; what is left out is listed under
    "Not modelled" with the reason. *)

From stdpp Require Export base list.
From Stdlib Require Export ZArith Lia.
Export ListNotations.

Declare Scope fluentpet_scope.
Delimit Scope fluentpet_scope with fp.
Open Scope fluentpet_scope.

(** JS strict (in)equality on values with decidable equality. *)
Notation "a === b" := (bool_decide (a = b)) (at level 70, no associativity) : fluentpet_scope.
Notation "a !== b" := (negb (bool_decide (a = b))) (at level 70, no associativity) : fluentpet_scope.

Create HintDb fluentpet.
Create Rewrite HintDb fluentpet_rw.

(** Turn every [bool_decide] of the goal and the context into its Prop. *)
Ltac unbool :=
  repeat match goal with
  | H : bool_decide _ = true |- _ => apply bool_decide_eq_true in H
  | H : bool_decide _ = false |- _ => apply bool_decide_eq_false in H
  | H : negb _ = true |- _ => apply negb_true_iff in H
  | H : negb _ = false |- _ => apply negb_false_iff in H
  | |- bool_decide _ = true => apply bool_decide_eq_true
  | |- bool_decide _ = false => apply bool_decide_eq_false
  end.

Ltac invc H := inversion H; subst; clear H.

(** Close a decidable proposition about closed data by evaluation. *)
Ltac decide_eval := repeat red; apply (bool_decide_unpack _); vm_compute; exact I.

(** Refute a decidable proposition about closed data by evaluation. *)
Ltac refute_eval :=
  let H := fresh in intros H; repeat red in H; apply (bool_decide_pack _) in H;
  vm_compute in H; exact H.

(** ** Generic lemmas on the list functions the code calls *)

Section ListFacts.
Context {A B : Type}.

  (** [xs.filter(f).length > 0] is the existence of an element satisfying
      [f]: the check [addPet] performs. *)
Lemma filter_length_pos (f : A -> bool) (l : list A) :
    (0 < length (List.filter f l))%nat <-> existsb f l = true.
  Proof.
    induction l as [|x l IH]; simpl; [split; [lia|discriminate]|].
    destruct (f x); simpl; [split; [auto|lia]|exact IH].
  Qed.

Lemma filter_idem (f : A -> bool) (l : list A) :
    List.filter f (List.filter f l) = List.filter f l.
  Proof.
    induction l as [|x l IH]; simpl; [done|].
    destruct (f x) eqn:E; simpl; [rewrite E|]; congruence.
  Qed.

Lemma filter_all (f : A -> bool) (l : list A) :
    (forall x, In x l -> f x = true) -> List.filter f l = l.
  Proof.
    induction l as [|x l IH]; simpl; intros H; [done|].
    rewrite (H x (or_introl eq_refl)), IH; auto.
  Qed.

Lemma map_id_in (f : A -> A) (l : list A) :
    (forall x, In x l -> f x = x) -> List.map f l = l.
  Proof.
    induction l as [|x l IH]; simpl; intros H; [done|].
    rewrite (H x (or_introl eq_refl)), IH; auto.
  Qed.

Lemma filter_sublist_of (f : A -> bool) (l : list A) :
    sublist (List.filter f l) l.
  Proof.
    induction l as [|x l IH]; simpl; [constructor|].
    destruct (f x); by constructor.
  Qed.

  (** Injectivity of a key on a list survives filtering. *)
Lemma NoDup_map_filter (g : A -> B) (f : A -> bool) (l : list A) :
    NoDup (List.map g l) -> NoDup (List.map g (List.filter f l)).
  Proof.
    induction l as [|x l IH]; simpl; [done|]. intros H.
    apply NoDup_cons in H as [Hx Hl].
    destruct (f x); simpl; [|auto]. apply NoDup_cons; split; [|auto].
    intros Hin. apply Hx, list_elem_of_In. apply list_elem_of_In, in_map_iff in Hin
      as (y & Hy & Hin). apply in_map_iff. exists y. split; [done|].
    by apply filter_In in Hin as [? _].
  Qed.

  (** Appending an element whose key is fresh keeps the keys distinct. *)
Lemma NoDup_map_snoc (g : A -> B) (l : list A) (x : A) :
    NoDup (List.map g l) -> (forall y, In y l -> g y <> g x) ->
    NoDup (List.map g (l ++ [x])).
  Proof.
    intros Hl Hx. rewrite map_app. apply NoDup_app. split; [done|split].
    - intros b Hb Hin. apply list_elem_of_singleton in Hin. subst b.
      apply list_elem_of_In, in_map_iff in Hb as (y & Hy & Hin). by apply (Hx y).
    - apply NoDup_singleton.
  Qed.
  (** A property of every element survives taking a sublist. *)
Lemma Forall_sublist_of (P : A -> Prop) (l1 l2 : list A) :
    sublist l1 l2 -> Forall P l2 -> Forall P l1.
  Proof.
    induction 1 as [|x l1 l2 _ IH|x l1 l2 _ IH]; intros Hl; [done| |];
      apply Forall_cons in Hl as [Hx Hl]; [constructor|]; auto.
  Qed.

  (** Distinct keys stay distinct on a sublist. *)
Lemma NoDup_map_sublist (g : A -> B) (l1 l2 : list A) :
    sublist l1 l2 -> NoDup (List.map g l2) -> NoDup (List.map g l1).
  Proof.
    intros Hs Hn. eapply sublist_NoDup; [exact Hn|]. clear Hn.
    induction Hs; simpl; [apply sublist_nil|by apply sublist_skip|by apply sublist_cons].
  Qed.

  (** Reading position [i] after [xs.map(f)]. *)
Lemma lookup_map_Some (f : A -> B) (l : list A) (i : nat) (x : A) :
    l !! i = Some x -> List.map f l !! i = Some (f x).
  Proof.
    revert i; induction l as [|y l IH]; intros [|i] Hi; simpl in *;
      [discriminate|discriminate|congruence|auto].
  Qed.
End ListFacts.

#[export] Hint Resolve filter_sublist_of NoDup_map_filter : fluentpet.
#[export] Hint Rewrite @filter_idem : fluentpet_rw.
