(* ===== verification/JsString.v ===== *)
(** * JsString: the JavaScript string runtime the app relies on

    A JS string is a sequence of UTF-16 code units; it is modelled as a
    [list Z] of code units ([jsstring]), and [js] turns an ASCII literal
    into one.  This file holds the string functions the source calls:
    [String.prototype.includes] ([includes]), [toUpperCase] (the class
    [ToUpperCase], with the ASCII instance used in the concrete examples),
    the age filter [age.replace(/[^0-9]/g, '')] ([stripNonDigits]),
    [Number.prototype.toString] on the integer [Date.now()]
    ([number_to_string], with the decoding [units_uint] that proves it
    injective), and the [||] of JS on strings,
    which falls back when the left string is empty or [undefined]. *)

From S2P Require Import Prelude.
From Stdlib Require Import Strings.String Strings.Ascii Numbers.DecimalN.

Abbreviation jsstring := (list Z).

(** An ASCII literal as a JS string: one code unit per character. *)
Fixpoint js (s : string) : jsstring :=
  match s with
  | EmptyString => []
  | String a s' => Z.of_N (N_of_ascii a) :: js s'
  end.

(** ** [String.prototype.includes] *)

(** [startsWith s q]: [q] is a prefix of [s]. *)
Fixpoint startsWith (s q : jsstring) : bool :=
  match q, s with
  | [], _ => true
  | c :: q', d :: s' => (c =? d)%Z && startsWith s' q'
  | _ :: _, [] => false
  end.

(** [s.includes(q)]: [q] starts at some position of [s] (the search
    position defaults to 0; the empty string is found at 0). *)
Fixpoint includes (s q : jsstring) : bool :=
  startsWith s q ||
  match s with
  | [] => false
  | _ :: s' => includes s' q
  end.

(** ** [toUpperCase] *)

(** [String.prototype.toUpperCase] maps a string to its full Unicode upper
    case (which can change the length, as "ß" to "SS").  The registry only
    compares its results and searches in them, so its properties hold for
    any mapping with the one law JS guarantees here: the empty string stays
    empty. *)
Class ToUpperCase := {
  toUpperCase : jsstring -> jsstring;
  toUpperCase_empty : toUpperCase [] = []
}.

(** The ASCII part of the Unicode mapping: [a..z] to [A..Z], other code
    units unchanged.  It agrees with JS on strings of ASCII characters. *)
Definition ascii_upper_unit (c : Z) : Z :=
  if (97 <=? c)%Z && (c <=? 122)%Z then (c - 32)%Z else c.

#[export] Instance ascii_toUpperCase : ToUpperCase :=
  {| toUpperCase := List.map ascii_upper_unit; toUpperCase_empty := eq_refl |}.

(** ** [age.replace(/[^0-9]/g, '')] *)

(** The regex class [[^0-9]] (no [u] flag) matches one code unit outside
    ['0'..'9']; the global replace by [''] deletes every such unit. *)
Definition isDigit (c : Z) : bool := (48 <=? c)%Z && (c <=? 57)%Z.

Definition stripNonDigits (s : jsstring) : jsstring := List.filter isDigit s.

(** ** [Number.prototype.toString] on a non-negative integer *)

(** Decimal digits as code units ['0' = 48 .. '9' = 57]. *)
Fixpoint uint_units (d : Decimal.uint) : jsstring :=
  match d with
  | Decimal.Nil => []
  | Decimal.D0 d => 48 :: uint_units d
  | Decimal.D1 d => 49 :: uint_units d
  | Decimal.D2 d => 50 :: uint_units d
  | Decimal.D3 d => 51 :: uint_units d
  | Decimal.D4 d => 52 :: uint_units d
  | Decimal.D5 d => 53 :: uint_units d
  | Decimal.D6 d => 54 :: uint_units d
  | Decimal.D7 d => 55 :: uint_units d
  | Decimal.D8 d => 56 :: uint_units d
  | Decimal.D9 d => 57 :: uint_units d
  end%Z.

(** [(n).toString()] for an integer [0 <= n < 10^21] (the range where JS
    prints plain decimal; [Date.now()] is about [1.7 * 10^12]): the
    shortest decimal numeral, ["0"] for zero. *)
Definition number_to_string (n : N) : jsstring := uint_units (N.to_uint n).

(** The inverse reading, used to state that distinct clock values give
    distinct ids. *)
Definition digit_cons (c : Z) (d : Decimal.uint) : option Decimal.uint :=
  match (c - 48)%Z with
  | 0%Z => Some (Decimal.D0 d) | 1%Z => Some (Decimal.D1 d)
  | 2%Z => Some (Decimal.D2 d) | 3%Z => Some (Decimal.D3 d)
  | 4%Z => Some (Decimal.D4 d) | 5%Z => Some (Decimal.D5 d)
  | 6%Z => Some (Decimal.D6 d) | 7%Z => Some (Decimal.D7 d)
  | 8%Z => Some (Decimal.D8 d) | 9%Z => Some (Decimal.D9 d)
  | _ => None
  end.

Fixpoint units_uint (s : jsstring) : option Decimal.uint :=
  match s with
  | [] => Some Decimal.Nil
  | c :: s' => match units_uint s' with
               | Some d => digit_cons c d
               | None => None
               end
  end.

(** ** JS [||] on strings *)

(** [a || b] where [a] is a string or [undefined]: [a] when it is a
    non-empty string (truthy), [b] otherwise. *)
Definition or_else (a : option jsstring) (b : jsstring) : jsstring :=
  match a with
  | Some ((_ :: _) as s) => s
  | _ => b
  end.

(** ** Properties *)

Lemma startsWith_spec (s q : jsstring) :
  startsWith s q = true <-> exists post, s = q ++ post.
Proof.
  revert s; induction q as [|c q IH]; intros [|d s]; simpl.
  - split; eauto.
  - split; eauto.
  - split; [discriminate|intros (? & ?); discriminate].
  - rewrite andb_true_iff, Z.eqb_eq, IH. split.
    + intros [-> (post & ->)]. eauto.
    + intros (post & [= -> ->]). eauto.
Qed.

(** [s.includes(q)] holds exactly when [q] occurs in [s] as a contiguous
    run of code units. *)
Lemma includes_spec (s q : jsstring) :
  includes s q = true <-> exists pre post, s = pre ++ q ++ post.
Proof.
  induction s as [|c s IH]; cbn [includes]; rewrite orb_true_iff, startsWith_spec.
  - split.
    + intros [(post & Hp) | Hf]; [|discriminate]. by exists [], post.
    + intros (pre & post & H). left. exists post.
      destruct pre; [done|discriminate].
  - rewrite IH. split.
    + intros [(post & Hp) | (pre & post & ->)].
      * by exists [], post.
      * by exists (c :: pre), post.
    + intros ([|c' pre] & post & H); simpl in H.
      * left. eauto.
      * right. injection H as -> ->. eauto.
Qed.

Lemma includes_empty (s : jsstring) : includes s [] = true.
Proof. destruct s; reflexivity. Qed.

Lemma stripNonDigits_digits (s : jsstring) :
  Forall (fun c => isDigit c = true) (stripNonDigits s).
Proof.
  apply Forall_forall. intros c Hc%list_elem_of_In. by apply filter_In in Hc as [_ ?].
Qed.

(** C24: the age field filter leaves only the digits ['0'..'9'], keeps
    every digit in order, and applying it again changes nothing. *)
Theorem stripNonDigits_spec (s : jsstring) :
  Forall (fun c => isDigit c = true) (stripNonDigits s) /\
  stripNonDigits (stripNonDigits s) = stripNonDigits s /\
  (Forall (fun c => isDigit c = true) s -> stripNonDigits s = s).
Proof.
  split; [apply stripNonDigits_digits|split].
  - apply filter_idem.
  - rewrite Forall_forall. intros H. apply filter_all. intros c Hc.
    by apply H, list_elem_of_In.
Qed.

Lemma units_uint_uint_units (d : Decimal.uint) :
  units_uint (uint_units d) = Some d.
Proof. induction d; simpl; rewrite ?IHd; reflexivity. Qed.

Lemma number_to_string_inj (n m : N) :
  number_to_string n = number_to_string m -> n = m.
Proof.
  unfold number_to_string. intros H. apply (f_equal units_uint) in H.
  rewrite !units_uint_uint_units in H. injection H as H.
  rewrite <- (Unsigned.of_to n), <- (Unsigned.of_to m). by f_equal.
Qed.

Lemma number_to_string_nonempty (n : N) : number_to_string n <> [].
Proof.
  unfold number_to_string. intros H. pose proof (units_uint_uint_units (N.to_uint n)) as R.
  rewrite H in R. simpl in R. injection R as R.
  apply (f_equal N.of_uint) in R. rewrite Unsigned.of_to in R. subst n. discriminate.
Qed.

Lemma or_else_nonempty (s b : jsstring) : s <> [] -> or_else (Some s) b = s.
Proof. destruct s; [done|reflexivity]. Qed.

#[export] Hint Resolve number_to_string_nonempty includes_empty stripNonDigits_digits : fluentpet.
