(* ===== verification/Types.v ===== *)
(** * Types: the data of the app and its constant tables

    [types/index.ts] declares [Pet], [PetCategory] and
    [PetOperationResponse] (and the navigation type [RootStackParamList],
    which no modelled code reads); each is a record in a module of its own, so its
    fields keep the source's names ([Pet.name], [Pet.id], ...).  An
    optional field ([field?: T]) is an [option].  [constants/index.ts]
    declares [PetCategories]; [SpeciesOptions] is the list of its species
    that [MainScreen.tsx] computes at load time. *)

From S2P Require Import Prelude JsString.
From Stdlib Require Import Strings.String.

Module PetCategory.
Record t := mk {
    category : jsstring;
    breeds : option (list jsstring)
  }.
End PetCategory.

Module Pet.
Record t := mk {
    id : jsstring;
    name : jsstring;
    age : jsstring;
    petCategory : option PetCategory.t;
    image : option jsstring;
    description : option jsstring
  }.
End Pet.

Module PetOperationResponse.
Record t := mk {
    success : bool;
    message : option jsstring
  }.
End PetOperationResponse.

(** [RootStackParamList] (lines 10-12): the navigator's one route
    [Main], which takes no parameters ([undefined]). *)
Module RootStackParamList.
Record t := mk {
    Main : unit
  }.
End RootStackParamList.

#[export] Instance PetCategory_eq_dec : EqDecision PetCategory.t.
Proof. solve_decision. Defined.

#[export] Instance Pet_eq_dec : EqDecision Pet.t.
Proof. solve_decision. Defined.

#[export] Instance PetOperationResponse_eq_dec : EqDecision PetOperationResponse.t.
Proof. solve_decision. Defined.

Local Open Scope string_scope.

(** [constants/index.ts]: the species and their breeds. *)
Definition PetCategories : list PetCategory.t := [
  {| PetCategory.category := js "Dog";
     PetCategory.breeds := Some [js "Golden Retriever"; js "German Shepherd";
                                 js "Pug"; js "Other"] |};
  {| PetCategory.category := js "Cat";
     PetCategory.breeds := Some [js "Calico"; js "Persian"; js "Siamese";
                                 js "Other"] |}
].

(** [const SpeciesOptions = PetCategories.map((category) => category.category)] *)
Definition SpeciesOptions : list jsstring := List.map PetCategory.category PetCategories.
