(* ===== verification/PetContext.v ===== *)
(** * PetContext: the pet registry of [context/PetContext.tsx]

    [PetProvider] keeps [pets] in a [useState] hook and builds, at each
    render, a context value whose operations close over that render's
    [pets].  An operation never changes [pets] itself: it calls
    [setPets(v)], and React installs [v] after the event handler returns.
    So each operation is modelled as a pure function of the rendered list
    that returns the operation's result together with the value it passes
    to [setPets] ([None] when [addPet] rejects and does not call it).

    The contract the screen relies on is the class [PetContextSpec]: an
    abstract specification of the registry, stated with membership,
    sublists and case-insensitive name collisions rather than with the
    code's [filter] and [map].  [PetProvider_laws] shows that the
    provider's operations meet it; the instance [PetProvider_spec] hands
    it to the screen's theorems.  The section
    [Registry] proves the operations' behaviour on every branch and the
    invariants they keep (names unique up to [toUpperCase], ids unique). *)

From S2P Require Import Prelude JsString Types.
From Stdlib Require Import Strings.String.

(** [type PetContextType] (lines 4-10). *)
Module PetContextType.
Record t := mk {
    pets : list Pet.t;
    addPet : Pet.t -> PetOperationResponse.t * option (list Pet.t);
    updatePet : Pet.t -> PetOperationResponse.t * list Pet.t;
    deletePet : jsstring -> list Pet.t;
    searchPets : jsstring -> list Pet.t
  }.
End PetContextType.

Definition unique_name_message : jsstring := js "Pet names must be unique"%string.

Section Registry.
Context `{ToUpperCase}.

  (** [addPet] (lines 19-35): reject a name equal up to [toUpperCase] to
      an existing one, else [setPets([...pets, newPet])]. *)
Definition addPet (pets : list Pet.t) (newPet : Pet.t)
      : PetOperationResponse.t * option (list Pet.t) :=
    let nameFilteredPets :=
      List.filter (fun existingPet =>
        toUpperCase (Pet.name existingPet) === toUpperCase (Pet.name newPet)) pets in
    if (0 <? List.length nameFilteredPets)%nat then
      ({| PetOperationResponse.success := false;
          PetOperationResponse.message := Some unique_name_message |}, None)
    else
      ({| PetOperationResponse.success := true;
          PetOperationResponse.message := None |}, Some (pets ++ [newPet])).

  (** [updatePet] (lines 37-48): replace every pet whose id is the
      candidate's, always [setPets] and report success. *)
Definition updatePet (pets : list Pet.t) (updatedPet : Pet.t)
      : PetOperationResponse.t * list Pet.t :=
    let newPets :=
      List.map (fun pet => if Pet.id pet === Pet.id updatedPet then updatedPet else pet) pets in
    ({| PetOperationResponse.success := true;
        PetOperationResponse.message := None |}, newPets).

  (** [deletePet] (lines 50-52): the value passed to [setPets]. *)
Definition deletePet (pets : list Pet.t) (id : jsstring) : list Pet.t :=
    List.filter (fun pet => Pet.id pet !== id) pets.

  (** [searchPets] (lines 55-57). *)
Definition searchPets (pets : list Pet.t) (searchName : jsstring) : list Pet.t :=
    List.filter (fun pet =>
      includes (toUpperCase (Pet.name pet)) (toUpperCase searchName)) pets.

  (** The context value of one render of [PetProvider] (lines 14-66). *)
Definition PetProvider (pets : list Pet.t) : PetContextType.t :=
    {| PetContextType.pets := pets;
       PetContextType.addPet := addPet pets;
       PetContextType.updatePet := updatePet pets;
       PetContextType.deletePet := deletePet pets;
       PetContextType.searchPets := searchPets pets |}.

  (** [createContext<PetContextType | undefined>(undefined)] (line 12):
      the value [useContext] reads outside every [PetContext.Provider]. *)
Definition PetContext_default : option PetContextType.t := None.

  (** [usePetContext] (lines 68-74): the context value, or the [Error]
      it throws outside a [PetProvider]. *)
Definition usePetContext (context : option PetContextType.t) : PetContextType.t + jsstring :=
    match context with
    | Some c => inl c
    | None => inr (js "usePetContext must be used within a PetProvider"%string)
    end.

  (** ** Registry invariants *)

  (** Two pets collide when their names agree up to [toUpperCase]. *)
Definition same_name (p q : Pet.t) : Prop :=
    toUpperCase (Pet.name p) = toUpperCase (Pet.name q).

Definition names_unique (pets : list Pet.t) : Prop :=
    NoDup (List.map (fun p => toUpperCase (Pet.name p)) pets).

Definition ids_unique (pets : list Pet.t) : Prop :=
    NoDup (List.map Pet.id pets).

  (** A search hit: the query occurs in the name, both upper-cased. *)
Definition name_matches (q : jsstring) (p : Pet.t) : Prop :=
    exists pre post, toUpperCase (Pet.name p) = pre ++ toUpperCase q ++ post.

  (** The in-place replacement [updatePet] promises, element by element. *)
Definition replaced_by (p q q' : Pet.t) : Prop :=
    q' = if decide (Pet.id q = Pet.id p) then p else q.
End Registry.

(** ** The contract of the context (abstract specification) *)

Class PetContextSpec `{ToUpperCase} (provide : list Pet.t -> PetContextType.t) := {
  spec_pets l : PetContextType.pets (provide l) = l;
  spec_add_reject l p :
    (exists q, In q l /\ same_name q p) ->
    PetContextType.addPet (provide l) p =
      ({| PetOperationResponse.success := false;
          PetOperationResponse.message := Some unique_name_message |}, None);
  spec_add_accept l p :
    (forall q, In q l -> ~ same_name q p) ->
    PetContextType.addPet (provide l) p =
      ({| PetOperationResponse.success := true;
          PetOperationResponse.message := None |}, Some (l ++ [p]));
  spec_update l p :
    fst (PetContextType.updatePet (provide l) p) =
      {| PetOperationResponse.success := true; PetOperationResponse.message := None |} /\
    Forall2 (replaced_by p) l (snd (PetContextType.updatePet (provide l) p));
  spec_delete l i :
    PetContextType.deletePet (provide l) i `sublist_of` l /\
    (forall q, In q (PetContextType.deletePet (provide l) i) <-> In q l /\ Pet.id q <> i);
  spec_search l s :
    PetContextType.searchPets (provide l) s `sublist_of` l /\
    (forall q, In q (PetContextType.searchPets (provide l) s) <-> In q l /\ name_matches s q)
}.

(** Records of the scenarios of the specification, used by the examples. *)
Definition mkPet (id name age description : string) : Pet.t :=
  {| Pet.id := js id; Pet.name := js name; Pet.age := js age;
     Pet.petCategory := None; Pet.image := None;
     Pet.description := Some (js description) |}.

Definition rex : Pet.t := mkPet "1" "Rex" "3" "friendly".
Definition rex_lower : Pet.t := mkPet "2" "rex" "1" "x".
Definition milo : Pet.t := mkPet "2" "Milo" "2" "x".
Definition milo_as_rex : Pet.t := mkPet "2" "REX" "2" "x".

(** ** Behaviour of the operations *)

Section RegistryFacts.
Context `{ToUpperCase}.
Implicit Types (pets : list Pet.t) (p q : Pet.t).

Lemma addPet_guard pets p :
    (0 <? List.length (List.filter (fun existingPet =>
        toUpperCase (Pet.name existingPet) === toUpperCase (Pet.name p)) pets))%nat = true
    <-> exists q, In q pets /\ same_name q p.
  Proof.
    rewrite Nat.ltb_lt, filter_length_pos, existsb_exists.
    unfold same_name. split; intros (q & Hq & E); exists q; split; unbool; auto.
  Qed.

Lemma addPet_reject_eq pets p :
    (exists q, In q pets /\ same_name q p) ->
    addPet pets p =
      ({| PetOperationResponse.success := false;
          PetOperationResponse.message := Some unique_name_message |}, None).
  Proof. intros Hq%addPet_guard. unfold addPet. by rewrite Hq. Qed.

Lemma addPet_accept_eq pets p :
    (forall q, In q pets -> ~ same_name q p) ->
    addPet pets p =
      ({| PetOperationResponse.success := true;
          PetOperationResponse.message := None |}, Some (pets ++ [p])).
  Proof.
    intros Hq. unfold addPet.
    destruct (0 <? _)%nat eqn:E; [|done].
    apply addPet_guard in E as (q & Hin & Hs). by destruct (Hq q Hin).
  Qed.

  (** The only write [addPet] makes is the append of the candidate. *)
Lemma addPet_write pets p r pets' :
    addPet pets p = (r, Some pets') ->
    pets' = pets ++ [p] /\ forall q, In q pets -> ~ same_name q p.
  Proof.
    unfold addPet. destruct (0 <? _)%nat eqn:G; intros E; [discriminate|].
    injection E as _ <-. split; [done|]. intros q Hq Hs.
    assert (Hc : exists q, In q pets /\ same_name q p) by eauto.
    apply addPet_guard in Hc. congruence.
  Qed.

Lemma updatePet_eq pets p :
    updatePet pets p =
      ({| PetOperationResponse.success := true; PetOperationResponse.message := None |},
       List.map (fun q => if decide (Pet.id q = Pet.id p) then p else q) pets).
  Proof.
    unfold updatePet. f_equal. apply map_ext. intros q.
    rewrite bool_decide_decide. by destruct (decide _).
  Qed.

Lemma updatePet_replaced pets p :
    Forall2 (replaced_by p) pets (snd (updatePet pets p)).
  Proof.
    rewrite updatePet_eq. simpl. induction pets as [|q pets IH]; constructor; [done|exact IH].
  Qed.

Lemma deletePet_In pets i q :
    In q (deletePet pets i) <-> In q pets /\ Pet.id q <> i.
  Proof.
    unfold deletePet. rewrite filter_In. by rewrite negb_true_iff, bool_decide_eq_false.
  Qed.

  (** Either some pet's name collides with the candidate's or none does. *)
Lemma collision_cases pets p :
    (exists q, In q pets /\ same_name q p) \/ (forall q, In q pets -> ~ same_name q p).
  Proof.
    destruct (existsb (fun q => toUpperCase (Pet.name q) === toUpperCase (Pet.name p)) pets)
      eqn:E; [left|right].
    - apply existsb_exists in E as (q & Hq & Hs). unbool. eauto.
    - intros q Hq Hs. apply not_true_iff_false in E. apply E, existsb_exists.
      exists q. split; [done|]. by unbool.
  Qed.

Lemma searchPets_nil pets : searchPets pets [] = pets.
  Proof.
    apply filter_all. intros q _. rewrite toUpperCase_empty. apply includes_empty.
  Qed.

Lemma searchPets_In pets s q :
    In q (searchPets pets s) <-> In q pets /\ name_matches s q.
  Proof. unfold searchPets, name_matches. by rewrite filter_In, includes_spec. Qed.
End RegistryFacts.

#[export] Hint Resolve addPet_reject_eq addPet_accept_eq updatePet_replaced : fluentpet.

(** ** Properties of the registry *)

Section RegistryTheorems.
Context `{ToUpperCase}.
Implicit Types (pets : list Pet.t) (p q : Pet.t).

  (** C1: [addPet] keeps the registry free of two names equal up to
      [toUpperCase]: whenever it writes a new list, that list has no
      case-insensitive duplicate if the old one had none. *)
Theorem addPet_keeps_names_unique pets p r pets' :
    names_unique pets -> addPet pets p = (r, Some pets') -> names_unique pets'.
  Proof.
    intros Hu (-> & Hfresh)%addPet_write. apply NoDup_map_snoc; [done|].
    intros q Hq. exact (Hfresh q Hq).
  Qed.

  (** C2: when an existing pet's name equals the candidate's up to
      [toUpperCase], [addPet] fails with "Pet names must be unique" and
      does not call [setPets], so the registry is unchanged. *)
Theorem addPet_rejects_duplicate pets p :
    (exists q, In q pets /\ same_name q p) ->
    addPet pets p =
      ({| PetOperationResponse.success := false;
          PetOperationResponse.message := Some unique_name_message |}, None).
  Proof. apply addPet_reject_eq. Qed.

  (** C3: when no existing name collides, [addPet] succeeds with no
      message and sets the registry to the old list with the candidate
      appended at the end. *)
Theorem addPet_appends pets p :
    (forall q, In q pets -> ~ same_name q p) ->
    addPet pets p =
      ({| PetOperationResponse.success := true;
          PetOperationResponse.message := None |}, Some (pets ++ [p])).
  Proof. apply addPet_accept_eq. Qed.

  (** C4: [updatePet] always reports success and writes a list of the same
      length in which the pet at each position whose id is the candidate's
      becomes the candidate and every other pet stays where it was. *)
Theorem updatePet_in_place pets p :
    PetOperationResponse.success (fst (updatePet pets p)) = true /\
    List.length (snd (updatePet pets p)) = List.length pets /\
    forall i q, pets !! i = Some q ->
      snd (updatePet pets p) !! i = Some (if decide (Pet.id q = Pet.id p) then p else q).
  Proof.
    rewrite updatePet_eq. simpl. split; [done|split; [apply length_map|]].
    intros i q Hi. by apply (lookup_map_Some (fun q => if decide _ then p else q)).
  Qed.

  (** C5: [updatePet] with an id that no pet has still reports success and
      leaves the registry as it was (the update is silently lost). *)
Theorem updatePet_unknown_id pets p :
    (forall q, In q pets -> Pet.id q <> Pet.id p) ->
    updatePet pets p =
      ({| PetOperationResponse.success := true; PetOperationResponse.message := None |}, pets).
  Proof.
    intros Hq. rewrite updatePet_eq. f_equal. apply map_id_in.
    intros q Hin. by rewrite decide_False by auto.
  Qed.

Lemma updatePet_ids pets p :
    List.map Pet.id (snd (updatePet pets p)) = List.map Pet.id pets.
  Proof.
    rewrite updatePet_eq. simpl. rewrite map_map. apply map_ext.
    intros q. by destruct (decide _).
  Qed.

  (** C7: [deletePet] keeps, in their order, exactly the pets whose id
      differs from the given one, and a registry without case-insensitive
      duplicate names keeps that property. *)
Theorem deletePet_removes pets i :
    deletePet pets i `sublist_of` pets /\
    (forall q, In q (deletePet pets i) <-> In q pets /\ Pet.id q <> i) /\
    (names_unique pets -> names_unique (deletePet pets i)).
  Proof.
    split; [apply filter_sublist_of|split; [apply deletePet_In|]].
    apply NoDup_map_filter.
  Qed.

  (** C8: [searchPets s] returns, in registry order, exactly the pets whose
      upper-cased name contains the upper-cased query as a substring. *)
Theorem searchPets_correct pets s :
    searchPets pets s `sublist_of` pets /\
    (forall q, In q (searchPets pets s) <-> In q pets /\ name_matches s q).
  Proof. split; [apply filter_sublist_of|apply searchPets_In]. Qed.

  (** C9: searching for the empty string returns the whole registry. *)
Theorem searchPets_empty_query pets : searchPets pets [] = pets.
  Proof. apply searchPets_nil. Qed.

  (** C10: ids stay distinct: [updatePet] keeps the list of ids as it was,
      [deletePet] keeps distinct ids distinct, and [addPet] does when the
      candidate's id is new (the registry itself never checks ids). *)
Theorem registry_keeps_ids_unique pets p i r pets' :
    ids_unique pets ->
    ids_unique (snd (updatePet pets p)) /\
    ids_unique (deletePet pets i) /\
    ((forall q, In q pets -> Pet.id q <> Pet.id p) ->
     addPet pets p = (r, Some pets') -> ids_unique pets').
  Proof.
    unfold ids_unique. intros Hu. split; [by rewrite updatePet_ids|split].
    - by apply NoDup_map_filter.
    - intros Hfresh (-> & _)%addPet_write. by apply NoDup_map_snoc.
  Qed.
End RegistryTheorems.

Lemma PetProvider_laws `{ToUpperCase} : PetContextSpec PetProvider.
Proof.
  split; intros; simpl.
  - done.
  - by apply addPet_reject_eq.
  - by apply addPet_accept_eq.
  - split; [done|apply updatePet_replaced].
  - split; [apply filter_sublist_of|apply deletePet_In].
  - split; [apply filter_sublist_of|apply searchPets_In].
Qed.

#[export] Instance PetProvider_spec `{ToUpperCase} : PetContextSpec PetProvider := PetProvider_laws.

(** C6: [updatePet] does not check names: renaming Milo to "REX" in a
    registry that holds Rex is accepted and leaves two pets whose names
    agree up to [toUpperCase], which [addPet] would have refused. *)
Theorem updatePet_breaks_name_uniqueness :
  names_unique [rex; milo] /\
  addPet [rex; milo] milo_as_rex =
    ({| PetOperationResponse.success := false;
        PetOperationResponse.message := Some unique_name_message |}, None) /\
  updatePet [rex; milo] milo_as_rex =
    ({| PetOperationResponse.success := true; PetOperationResponse.message := None |},
     [rex; milo_as_rex]) /\
  ~ names_unique [rex; milo_as_rex].
Proof.
  split; [decide_eval|split; [reflexivity|split; [reflexivity|]]].
  intros Hn. apply NoDup_cons in Hn as [Hn _]. apply Hn. left.
Qed.

(** ** Witnesses: the scenarios of the specification *)

Lemma addPet_keeps_names_unique_witness :
  names_unique [rex] /\ names_unique [rex; milo].
Proof.
  split; [decide_eval|].
  apply (addPet_keeps_names_unique [rex] milo
    {| PetOperationResponse.success := true; PetOperationResponse.message := None |});
    [decide_eval|reflexivity].
Defined.

Lemma addPet_rejects_duplicate_witness :
  addPet [rex] rex_lower =
    ({| PetOperationResponse.success := false;
        PetOperationResponse.message := Some unique_name_message |}, None).
Proof.
  apply addPet_rejects_duplicate. exists rex. split; [left; reflexivity|reflexivity].
Defined.

Lemma addPet_appends_witness :
  addPet [rex] milo =
    ({| PetOperationResponse.success := true;
        PetOperationResponse.message := None |}, Some [rex; milo]).
Proof.
  apply addPet_appends. intros q [<-|[]] E. vm_compute in E. discriminate.
Defined.

Lemma updatePet_unknown_id_witness :
  updatePet [rex] milo =
    ({| PetOperationResponse.success := true; PetOperationResponse.message := None |}, [rex]).
Proof.
  apply updatePet_unknown_id. intros q [<-|[]] E. vm_compute in E. discriminate.
Defined.

Lemma registry_keeps_ids_unique_witness :
  ids_unique [rex; milo].
Proof.
  apply (proj2 (proj2 (registry_keeps_ids_unique [rex] milo [] 
    {| PetOperationResponse.success := true; PetOperationResponse.message := None |}
    [rex; milo] ltac:(decide_eval)))).
  - intros q [<-|[]] E. vm_compute in E. discriminate.
  - reflexivity.
Defined.
