(* ===== verification/Unicode.v ===== *)
(** * Unicode: [String.prototype.toUpperCase] beyond ASCII

    [addPet] and [searchPets] compare names through [toUpperCase], which
    JS defines by the full case mapping of Unicode (UnicodeData.txt and
    the unconditional entries of SpecialCasing.txt): one code unit may
    become two ("ß" to "SS", "ŉ" to "ʼN").  [unicode_upper_unit] is that
    mapping for the blocks Basic Latin, Latin-1 Supplement and Latin
    Extended-A (U+0000 to U+017F); above U+017F it is left as the
    identity, and no theorem reads it there.

    The specification asks for a case-insensitive comparison of names.
    Its reference is Unicode full case folding (CaseFolding.txt, status C
    and F), [casefold_unit] on the same blocks.  On Latin-1 names the
    collision check of [addPet] is exactly equality after case folding;
    one block further it is not: "ı" (U+0131) upper-cases to "I", so a
    pet named "ı" is refused next to one named "i", although the two
    fold to different strings.

    The per-code-unit facts are decided by evaluation over the 256
    Latin-1 code units; the string-level theorems follow by induction.
    On ASCII strings the mapping is the ASCII instance of [JsString],
    which the concrete scenarios of the other files run on. *)

From S2P Require Import Prelude JsString Types PetContext.
From stdpp Require Import list_numbers.
From Stdlib Require Import Strings.String.

(** [lo <= c <= hi] on code units. *)
Definition in_range (lo hi c : Z) : bool := (lo <=? c)%Z && (c <=? hi)%Z.

(** The full upper-case mapping of one code unit below U+0180. *)
Definition unicode_upper_unit (c : Z) : list Z :=
  if in_range 97 122 c then [c - 32]%Z                       (* a..z *)
  else if (c =? 181)%Z then [924%Z]                          (* µ to Greek Μ *)
  else if (c =? 223)%Z then [83%Z; 83%Z]                     (* ß to SS *)
  else if in_range 224 254 c && negb (c =? 247)%Z then [c - 32]%Z  (* à..þ, not ÷ *)
  else if (c =? 255)%Z then [376%Z]                          (* ÿ to Ÿ *)
  else if (c =? 305)%Z then [73%Z]                           (* dotless ı to I *)
  else if (c =? 329)%Z then [700%Z; 78%Z]                    (* ŉ to ʼN *)
  else if (c =? 383)%Z then [83%Z]                           (* long ſ to S *)
  else if (in_range 256 311 c || in_range 330 375 c) && Z.odd c then [c - 1]%Z
  else if (in_range 313 328 c || in_range 377 382 c) && Z.even c then [c - 1]%Z
  else [c].

(** [toUpperCase] on these blocks. *)
Definition unicode_toUpperCase : ToUpperCase :=
  {| toUpperCase := flat_map unicode_upper_unit; toUpperCase_empty := eq_refl |}.

(** Full case folding of one code unit below U+0180: the reference of a
    case-insensitive comparison. *)
Definition casefold_unit (c : Z) : list Z :=
  if in_range 65 90 c then [c + 32]%Z                        (* A..Z *)
  else if (c =? 181)%Z then [956%Z]                          (* µ to Greek μ *)
  else if in_range 192 222 c && negb (c =? 215)%Z then [c + 32]%Z  (* À..Þ, not × *)
  else if (c =? 223)%Z then [115%Z; 115%Z]                   (* ß to ss *)
  else if (c =? 304)%Z then [105%Z; 775%Z]                   (* İ to i + dot above *)
  else if (c =? 329)%Z then [700%Z; 110%Z]                   (* ŉ to ʼn *)
  else if (c =? 376)%Z then [255%Z]                          (* Ÿ to ÿ *)
  else if (c =? 383)%Z then [115%Z]                          (* long ſ to s *)
  else if (in_range 256 311 c || in_range 330 375 c) && Z.even c then [c + 1]%Z
  else if (in_range 313 328 c || in_range 377 382 c) && Z.odd c then [c + 1]%Z
  else [c].

Definition casefold (s : jsstring) : jsstring := flat_map casefold_unit s.

(** A name of Latin-1 code units only. *)
Definition latin1 (c : Z) : Prop := (0 <= c <= 255)%Z.

Definition latin1_name (p : Pet.t) : Prop := Forall latin1 (Pet.name p).

#[export] Instance latin1_dec c : Decision (latin1 c).
Proof. unfold latin1. apply _. Defined.

(** Lower-casing the image of [unicode_upper_unit] on Latin-1. *)
Definition lower_of_upper (u : Z) : Z :=
  if in_range 65 90 u then (u + 32)%Z
  else if (u =? 924)%Z then 956%Z
  else if in_range 192 222 u && negb (u =? 215)%Z then (u + 32)%Z
  else if (u =? 376)%Z then 255%Z
  else u.

(** The code units [toUpperCase] produces from Latin-1 names. *)
Definition upper_image : list Z := flat_map unicode_upper_unit (seqZ 0 256).

(** ** Tables decided over the 256 Latin-1 code units *)

(** Folding a Latin-1 unit is lower-casing its upper case. *)
Lemma fold_upper_table :
  Forall (fun c => casefold_unit c = List.map lower_of_upper (unicode_upper_unit c)) (seqZ 0 256).
Proof. decide_eval. Qed.

(** Lower-casing is injective on the upper cases of Latin-1 units. *)
Lemma lower_inj_table :
  Forall (fun u => Forall (fun v => lower_of_upper u = lower_of_upper v -> u = v) upper_image)
    upper_image.
Proof. decide_eval. Qed.

Lemma latin1_seqZ c : latin1 c -> c ∈ seqZ 0 256.
Proof. intros Hc. apply elem_of_seqZ. unfold latin1 in Hc. lia. Qed.

(** ** From code units to names *)

Lemma casefold_latin1 s :
  Forall latin1 s -> casefold s = List.map lower_of_upper (flat_map unicode_upper_unit s).
Proof.
  unfold casefold. induction 1 as [|c s Hc _ IH]; [done|]. simpl.
  rewrite map_app, IH. f_equal.
  apply (proj1 (Forall_forall _ _) fold_upper_table), latin1_seqZ, Hc.
Qed.

Lemma upper_in_image s :
  Forall latin1 s -> Forall (fun u => u ∈ upper_image) (flat_map unicode_upper_unit s).
Proof.
  induction 1 as [|c s Hc _ IH]; simpl; [constructor|]. apply Forall_app. split; [|done].
  apply Forall_forall. intros u Hu. apply list_elem_of_In, in_flat_map. exists c.
  split; [apply list_elem_of_In, latin1_seqZ, Hc|by apply list_elem_of_In].
Qed.

Lemma map_lower_inj xs ys :
  Forall (fun u => u ∈ upper_image) xs -> Forall (fun u => u ∈ upper_image) ys ->
  List.map lower_of_upper xs = List.map lower_of_upper ys -> xs = ys.
Proof.
  intros Hx. revert ys. induction Hx as [|x xs Hx _ IH]; intros [|y ys] Hy E;
    simpl in E; try discriminate; [done|].
  injection E as E1 E2. apply Forall_cons in Hy as [Hy Hys]. f_equal; [|by apply IH].
  exact (proj1 (Forall_forall _ _) (proj1 (Forall_forall _ _) lower_inj_table x Hx) y Hy E1).
Qed.

(** On Latin-1 strings, equal upper cases are equal case foldings. *)
Lemma upper_eq_iff_casefold x y :
  Forall latin1 x -> Forall latin1 y ->
  flat_map unicode_upper_unit x = flat_map unicode_upper_unit y <-> casefold x = casefold y.
Proof.
  intros Hx Hy. rewrite !casefold_latin1 by done. split; [by intros ->|].
  apply map_lower_inj; by apply upper_in_image.
Qed.

(** [addPet] refuses exactly on a collision, whatever [toUpperCase] is. *)
Lemma addPet_refuses_iff `{ToUpperCase} l p :
  PetOperationResponse.success (fst (addPet l p)) = false <-> exists q, In q l /\ same_name q p.
Proof.
  destruct (collision_cases l p) as [Hc|Hc].
  - rewrite addPet_reject_eq by done. by split.
  - rewrite addPet_accept_eq by done. split; [discriminate|]. intros (q & Hq & Hs).
    by destruct (Hc q Hq).
Qed.

(** The ASCII instance, which the concrete scenarios run on, is the
    Unicode mapping on ASCII strings. *)
Lemma ascii_upper_table :
  Forall (fun c => unicode_upper_unit c = [ascii_upper_unit c]) (seqZ 0 128).
Proof. decide_eval. Qed.

Lemma ascii_agrees_with_unicode s :
  Forall (fun c => 0 <= c < 128)%Z s ->
  @toUpperCase unicode_toUpperCase s = @toUpperCase ascii_toUpperCase s.
Proof.
  simpl. induction 1 as [|c s Hc _ IH]; [done|]. simpl. rewrite IH.
  rewrite (proj1 (Forall_forall _ _) ascii_upper_table c); [done|].
  apply elem_of_seqZ. lia.
Qed.

(** ** The collision check of [addPet] against case-insensitive equality *)

(** C20: with the Unicode [toUpperCase], [addPet] refuses a Latin-1 name
    exactly when a registered Latin-1 name is equal to it after Unicode
    case folding, which is what the specification's case-insensitive
    comparison means; one block further the two part: a pet named "ı"
    (U+0131) is refused next to a pet named "i", whose case foldings
    differ. *)
Theorem addPet_collision_is_casefold :
  (forall l p, latin1_name p -> Forall latin1_name l ->
     PetOperationResponse.success (fst (@addPet unicode_toUpperCase l p)) = false <->
     exists q, In q l /\ casefold (Pet.name q) = casefold (Pet.name p)) /\
  PetOperationResponse.success
    (fst (@addPet unicode_toUpperCase [mkPet "1" "i" "1" "x"]
           (Pet.mk (js "2") [305%Z] (js "1") None None (Some (js "x"))))) = false /\
  casefold [305%Z] <> casefold (js "i").
Proof.
  split; [|split; [reflexivity|discriminate]].
  intros l p Hp Hl. rewrite addPet_refuses_iff. unfold same_name. simpl.
  split; intros (q & Hq & E); exists q; split; try done;
    apply (upper_eq_iff_casefold _ _ (proj1 (List.Forall_forall _ _) Hl q Hq) Hp); exact E.
Qed.

(** ** Witness *)

(** "STRASSE" is refused next to "Straße": the two fold to "strasse". *)
Lemma addPet_collision_is_casefold_witness :
  PetOperationResponse.success (fst (@addPet unicode_toUpperCase
    [Pet.mk (js "1") [83; 116; 114; 97; 223; 101]%Z (js "3") None None (Some (js "x"))]
    (Pet.mk (js "2") (js "STRASSE") (js "2") None None (Some (js "y"))))) = false.
Proof.
  apply (proj1 addPet_collision_is_casefold).
  - unfold latin1_name, latin1. simpl. repeat constructor; lia.
  - unfold latin1_name, latin1. simpl. repeat constructor; lia.
  - eexists. split; [left; reflexivity|vm_compute; reflexivity].
Defined.
