(* ===== verification/MainScreen.v ===== *)
(** * MainScreen: the form and list of [screens/MainScreen.tsx]

    The screen's [useState] hooks are the fields of [State]; with the
    provider's [pets] they form the app state [App].  A handler never
    assigns a hook: it calls setters, and React applies the queued values
    in order once the handler returns.  Every setter call is a value of
    [Update] (constructors named after the setters), a handler is the
    list of updates it queues, computed from the state of the render it
    closes over, and [commit] applies them.  After the commit the
    [useEffect] on [editingPet] runs ([effect]); [dispatch] is one user
    event: handler, commit, effect, commit.

    The handlers reach the registry only through the context value
    [provide pets] ([usePetContext()]); the section [Screen] takes
    [provide] as a variable, and the theorems about it assume only the
    contract [PetContextSpec], so they hold for [PetProvider].

    [reachable] is the set of app states that a sequence of enabled
    events (the buttons and inputs the render shows) reaches from the
    first render, with the value [Date.now()] returns at each submit
    constrained by a relation [tick] on successive clock values. *)

From S2P Require Import Prelude JsString Types PetContext.
From Stdlib Require Import Strings.String.

(** [type FieldErrorMessages] (lines 14-18). *)
Module FieldErrorMessages.
Record t := mk {
    name : jsstring;
    age : jsstring;
    description : jsstring
  }.
End FieldErrorMessages.

#[export] Instance FieldErrorMessages_eq_dec : EqDecision FieldErrorMessages.t.
Proof. solve_decision. Defined.

Definition noFieldErrors : FieldErrorMessages.t :=
  {| FieldErrorMessages.name := []; FieldErrorMessages.age := [];
     FieldErrorMessages.description := [] |}.

(** The hooks of the screen (lines 25-40). *)
Record State := mkState {
  name : jsstring;
  age : jsstring;
  description : jsstring;
  species : jsstring;
  breed : jsstring;
  searchName : jsstring;
  editingPet : option Pet.t;
  fieldErrorMessages : FieldErrorMessages.t;
  formErrorMessage : option jsstring
}.

(** The provider's hook and the screen's hooks. *)
Record App := mkApp {
  pets : list Pet.t;
  screen : State
}.

(** One setter call: [setPets] of the provider or a setter of the screen. *)
Inductive Update :=
| setPets (v : list Pet.t)
| setName (v : jsstring)
| setAge (v : jsstring)
| setDescription (v : jsstring)
| setSpecies (v : jsstring)
| setBreed (v : jsstring)
| setSearchName (v : jsstring)
| setEditingPet (v : option Pet.t)
| setFieldMessages (v : FieldErrorMessages.t)
| setFormErrorMessage (v : option jsstring).

Definition apply_update (a : App) (u : Update) : App :=
  let s := screen a in
  match u with
  | setPets v => mkApp v s
  | setName v => mkApp (pets a) (mkState v (age s) (description s) (species s) (breed s)
                   (searchName s) (editingPet s) (fieldErrorMessages s) (formErrorMessage s))
  | setAge v => mkApp (pets a) (mkState (name s) v (description s) (species s) (breed s)
                   (searchName s) (editingPet s) (fieldErrorMessages s) (formErrorMessage s))
  | setDescription v => mkApp (pets a) (mkState (name s) (age s) v (species s) (breed s)
                   (searchName s) (editingPet s) (fieldErrorMessages s) (formErrorMessage s))
  | setSpecies v => mkApp (pets a) (mkState (name s) (age s) (description s) v (breed s)
                   (searchName s) (editingPet s) (fieldErrorMessages s) (formErrorMessage s))
  | setBreed v => mkApp (pets a) (mkState (name s) (age s) (description s) (species s) v
                   (searchName s) (editingPet s) (fieldErrorMessages s) (formErrorMessage s))
  | setSearchName v => mkApp (pets a) (mkState (name s) (age s) (description s) (species s)
                   (breed s) v (editingPet s) (fieldErrorMessages s) (formErrorMessage s))
  | setEditingPet v => mkApp (pets a) (mkState (name s) (age s) (description s) (species s)
                   (breed s) (searchName s) v (fieldErrorMessages s) (formErrorMessage s))
  | setFieldMessages v => mkApp (pets a) (mkState (name s) (age s) (description s)
                   (species s) (breed s) (searchName s) (editingPet s) v (formErrorMessage s))
  | setFormErrorMessage v => mkApp (pets a) (mkState (name s) (age s) (description s)
                   (species s) (breed s) (searchName s) (editingPet s) (fieldErrorMessages s) v)
  end.

(** React applies the queued setter calls in the order they were made. *)
Definition commit (a : App) (us : list Update) : App := fold_left apply_update us a.

(** [clearFields] (lines 100-104). *)
Definition clearFields : list Update := [setName []; setAge []; setDescription []].

(** [validateFields] (lines 106-130): whether the three required fields
    are non-empty, and the [setFieldMessages] call it makes. *)
Definition validateFields (s : State) : bool * list Update :=
  let nameMissing := name s === [] in
  let ageMissing := age s === [] in
  let descriptionMissing := description s === [] in
  let newFieldErrorMessages :=
    {| FieldErrorMessages.name :=
         if nameMissing then js "Name field is required."%string else [];
       FieldErrorMessages.age :=
         if ageMissing then js "Age field is required."%string else [];
       FieldErrorMessages.description :=
         if descriptionMissing then js "Description field is required."%string else [] |} in
  (negb nameMissing && negb ageMissing && negb descriptionMissing,
   [setFieldMessages newFieldErrorMessages]).

(** The record [handleSubmit] builds (lines 50-55): the id of the pet
    being edited, or the decimal text of [Date.now()] when there is none
    (or its id is empty); no category, breed or image. *)
Definition petData (s : State) (now : N) : Pet.t :=
  {| Pet.id := or_else (option_map Pet.id (editingPet s)) (number_to_string now);
     Pet.name := name s;
     Pet.age := age s;
     Pet.petCategory := None;
     Pet.image := None;
     Pet.description := Some (description s) |}.

(** [handleSubmit] (lines 48-69), given the context value of the render
    and the value of [Date.now()]. *)
Definition handleSubmit (ctx : PetContextType.t) (s : State) (now : N) : list Update :=
  let (isValid, fieldUpdates) := validateFields s in
  fieldUpdates ++
  if isValid then
    match editingPet s with
    | Some _ =>
        let (res, newPets) := PetContextType.updatePet ctx (petData s now) in
        [setPets newPets] ++
        (if PetOperationResponse.success res then [setEditingPet None] else []) ++
        [setFormErrorMessage (PetOperationResponse.message res)]
    | None =>
        let (res, write) := PetContextType.addPet ctx (petData s now) in
        (match write with Some v => [setPets v] | None => [] end) ++
        (if PetOperationResponse.success res then clearFields else []) ++
        [setFormErrorMessage (PetOperationResponse.message res)]
    end
  else [].

(** The Edit button of a list item (lines 79-84). *)
Definition onEditPress (item : Pet.t) : list Update :=
  [setEditingPet (Some item); setName (Pet.name item); setAge (Pet.age item);
   setDescription (or_else (Pet.description item) [])].

(** The Delete button of a list item (line 91). *)
Definition onDeletePress (ctx : PetContextType.t) (item : Pet.t) : list Update :=
  [setPets (PetContextType.deletePet ctx (Pet.id item))].

(** The age input keeps only digits (line 161). *)
Definition onChangeAge (v : jsstring) : list Update := [setAge (stripNonDigits v)].

(** The [useEffect] on [editingPet] (lines 42-46): when [editingPet]
    changed in the commit and is now [undefined], clear the fields. *)
Definition effect (before after : App) : list Update :=
  if editingPet (screen before) === editingPet (screen after) then []
  else match editingPet (screen after) with
       | None => clearFields
       | Some _ => []
       end.

(** The data of the [FlatList] (line 263). *)
Definition listData (ctx : PetContextType.t) (s : State) : list Pet.t :=
  if searchName s === [] then PetContextType.pets ctx
  else PetContextType.searchPets ctx (searchName s).

(** [PetCategories.filter((category) => category.category === species)[0].breeds]
    (line 212): [None] when [[0]] is [undefined] and reading [.breeds]
    throws a [TypeError]. *)
Definition breedsOf (sp : jsstring) : option (option (list jsstring)) :=
  match List.filter (fun c => PetCategory.category c === sp) PetCategories with
  | c :: _ => Some (PetCategory.breeds c)
  | [] => None
  end.

(** The breed buttons (lines 203-221): none while [species] is empty, the
    species' breeds otherwise ([breeds?.map] renders nothing when
    [breeds] is [undefined]); [None] when rendering throws. *)
Definition breedButtons (s : State) : option (list jsstring) :=
  if species s === [] then Some []
  else match breedsOf (species s) with
       | Some bs => Some (default [] bs)
       | None => None
       end.

(** The user's actions on the rendered screen. *)
Inductive Event :=
| ChangeName (v : jsstring)          (* onChangeText={setName}, line 145 *)
| ChangeAge (v : jsstring)           (* line 161 *)
| ChangeDescription (v : jsstring)   (* line 178 *)
| ChangeSearchName (v : jsstring)    (* line 256 *)
| PressSpecies (sp : jsstring)       (* line 196 *)
| PressBreed (b : jsstring)          (* line 212 *)
| Submit (now : N)                   (* line 225, Date.now() = now *)
| PressEdit (item : Pet.t)           (* lines 79-84 *)
| PressDelete (item : Pet.t)         (* line 91 *)
| PressCancel.                       (* line 232 *)

Section Screen.
Context `{ToUpperCase}.
Variable provide : list Pet.t -> PetContextType.t.

  (** The handler an event runs, with the context value of the render. *)
Definition handler (a : App) (ev : Event) : list Update :=
    let ctx := provide (pets a) in
    match ev with
    | ChangeName v => [setName v]
    | ChangeAge v => onChangeAge v
    | ChangeDescription v => [setDescription v]
    | ChangeSearchName v => [setSearchName v]
    | PressSpecies sp => [setSpecies sp]
    | PressBreed b => [setBreed b]
    | Submit now => handleSubmit ctx (screen a) now
    | PressEdit item => onEditPress item
    | PressDelete item => onDeletePress ctx item
    | PressCancel => [setEditingPet None]
    end.

  (** One event: the handler's updates are committed, then the effect runs
      on the new render and its updates are committed. *)
Definition dispatch (a : App) (ev : Event) : App :=
    let a1 := commit a (handler a ev) in
    commit a1 (effect a a1).

  (** Which events the render offers: the species buttons of
      [SpeciesOptions], the breed buttons of the chosen species, Edit and
      Delete on the listed pets, Cancel only while editing. *)
Definition enabled (a : App) (ev : Event) : bool :=
    let s := screen a in
    match ev with
    | PressSpecies sp => bool_decide (sp ∈ SpeciesOptions)
    | PressBreed b =>
        match breedButtons s with
        | Some bs => bool_decide (b ∈ bs)
        | None => false
        end
    | PressEdit item | PressDelete item => bool_decide (item ∈ listData (provide (pets a)) s)
    | PressCancel => bool_decide (editingPet s <> None)
    | _ => true
    end.

  (** The clock after an event: a submit reads [Date.now()]. *)
Definition event_clock (c : N) (ev : Event) : N :=
    match ev with Submit now => now | _ => c end.

  (** [tick c now]: the clock may read [now] after [c]. *)
Variable tick : N -> N -> bool.

Definition clock_ok (c : N) (ev : Event) : bool :=
    match ev with Submit now => tick c now | _ => true end.

  (** The first render: no pets, empty fields (the mount effect clears
      fields that are already empty). *)
Definition initState : State :=
    mkState [] [] [] [] [] [] None noFieldErrors None.

Definition initApp : App := mkApp [] initState.

Inductive reachable : App -> N -> Prop :=
  | reach_init c : reachable initApp c
  | reach_step a c ev :
      reachable a c -> enabled a ev = true -> clock_ok c ev = true ->
      reachable (dispatch a ev) (event_clock c ev).

  (** Run a sequence of events; [None] when one is not offered. *)
Fixpoint run (a : App) (c : N) (evs : list Event) : option (App * N) :=
    match evs with
    | [] => Some (a, c)
    | ev :: evs' =>
        if enabled a ev && clock_ok c ev
        then run (dispatch a ev) (event_clock c ev) evs'
        else None
    end.
End Screen.

(** The three required fields are filled. *)
Definition valid (s : State) : Prop :=
  name s <> [] /\ age s <> [] /\ description s <> [].

#[export] Instance valid_dec s : Decision (valid s).
Proof. unfold valid. apply _. Defined.

(** The screen after [clearFields] and leaving edit mode, other hooks kept. *)
Definition cleared (s : State) (fe : FieldErrorMessages.t) (fm : option jsstring) : State :=
  mkState [] [] [] (species s) (breed s) (searchName s) None fe fm.

(** The pet a submit with these fields and no edited pet builds. *)
Definition mkApp_pet (id n a d : string) : Pet.t :=
  {| Pet.id := js id; Pet.name := js n; Pet.age := js a; Pet.petCategory := None;
     Pet.image := None; Pet.description := Some (js d) |}.

(** A form with the three required fields and the edited pet. *)
Definition form (n a d : string) (ed : option Pet.t) : State :=
  mkState (js n) (js a) (js d) [] [] [] ed noFieldErrors None.

(** ** Shape of one event *)

Lemma commit_app a us1 us2 : commit a (us1 ++ us2) = commit (commit a us1) us2.
Proof. apply fold_left_app. Qed.

Lemma validateFields_valid s :
  valid s -> validateFields s = (true, [setFieldMessages noFieldErrors]).
Proof.
  intros (Hn & Ha & Hd). unfold validateFields.
  by rewrite !bool_decide_false by done.
Qed.

Lemma validateFields_invalid s :
  ~ valid s ->
  exists m, validateFields s = (false, [setFieldMessages m]) /\
    (name s = [] <-> FieldErrorMessages.name m <> []) /\
    (age s = [] <-> FieldErrorMessages.age m <> []) /\
    (description s = [] <-> FieldErrorMessages.description m <> []).
Proof.
  intros Hv. unfold validateFields. eexists. split; [f_equal; try reflexivity|].
  - destruct (decide (name s = [])) as [E|E]; [by rewrite (bool_decide_true _ E)|].
    destruct (decide (age s = [])) as [E'|E'];
      [by rewrite (bool_decide_true _ E'), andb_false_r|].
    destruct (decide (description s = [])) as [E''|E''];
      [by rewrite (bool_decide_true _ E''), andb_false_r|].
    by destruct Hv.
  - simpl. repeat split; case_bool_decide; done.
Qed.

Lemma Forall2_replaced_Forall (P : Pet.t -> Prop) p l l' :
  Forall P l -> P p -> Forall2 (replaced_by p) l l' -> Forall P l'.
Proof.
  intros Hl Hp H2. induction H2 as [|q q' l l' Hr _ IH]; [constructor|].
  apply Forall_cons in Hl as [Hq Hl]. constructor; [|by apply IH].
  rewrite Hr. by destruct (decide _).
Qed.

Lemma Forall2_replaced_ids p l l' :
  Forall2 (replaced_by p) l l' -> List.map Pet.id l' = List.map Pet.id l.
Proof.
  intros H2. induction H2 as [|q q' l l' Hr _ IH]; [done|]. simpl. rewrite IH.
  f_equal. rewrite Hr. by destruct (decide _).
Qed.

Section ScreenFacts.
Context `{ToUpperCase} (provide : list Pet.t -> PetContextType.t) `{!PetContextSpec provide}.

  (** The effect does nothing when [editingPet] did not change. *)
Lemma effect_same a b :
    editingPet (screen a) = editingPet (screen b) -> effect a b = [].
  Proof. intros E. unfold effect. by rewrite E, bool_decide_true. Qed.

Lemma effect_leave a e b :
    editingPet (screen a) = Some e -> editingPet (screen b) = None -> effect a b = clearFields.
  Proof. intros Ea Eb. unfold effect. by rewrite Ea, Eb, bool_decide_false. Qed.

Lemma submit_invalid_eq a now :
    ~ valid (screen a) ->
    exists m, dispatch provide a (Submit now) =
      mkApp (pets a) (mkState (name (screen a)) (age (screen a)) (description (screen a))
        (species (screen a)) (breed (screen a)) (searchName (screen a))
        (editingPet (screen a)) m (formErrorMessage (screen a))) /\
      (name (screen a) = [] <-> FieldErrorMessages.name m <> []) /\
      (age (screen a) = [] <-> FieldErrorMessages.age m <> []) /\
      (description (screen a) = [] <-> FieldErrorMessages.description m <> []).
  Proof.
    intros (m & Ev & Hm)%validateFields_invalid. exists m. split; [|exact Hm].
    unfold dispatch, handler, handleSubmit. rewrite Ev. simpl.
    by rewrite effect_same.
  Qed.

Lemma submit_add_reject_eq a now :
    editingPet (screen a) = None -> valid (screen a) ->
    (exists q, In q (pets a) /\ same_name q (petData (screen a) now)) ->
    dispatch provide a (Submit now) =
      mkApp (pets a) (mkState (name (screen a)) (age (screen a)) (description (screen a))
        (species (screen a)) (breed (screen a)) (searchName (screen a)) None
        noFieldErrors (Some unique_name_message)).
  Proof.
    intros Ee Hv Hc. unfold dispatch, handler, handleSubmit.
    rewrite validateFields_valid, Ee, spec_add_reject by done. simpl.
    rewrite effect_same by (simpl; done). simpl. by rewrite Ee.
  Qed.

Lemma submit_add_accept_eq a now :
    editingPet (screen a) = None -> valid (screen a) ->
    (forall q, In q (pets a) -> ~ same_name q (petData (screen a) now)) ->
    dispatch provide a (Submit now) =
      mkApp (pets a ++ [petData (screen a) now]) (cleared (screen a) noFieldErrors None).
  Proof.
    intros Ee Hv Hc. unfold dispatch, handler, handleSubmit.
    rewrite validateFields_valid, Ee, spec_add_accept by done. simpl.
    rewrite effect_same by (simpl; done). simpl. by rewrite Ee.
  Qed.

Lemma submit_update_eq a e now :
    editingPet (screen a) = Some e -> valid (screen a) ->
    dispatch provide a (Submit now) =
      mkApp (snd (PetContextType.updatePet (provide (pets a)) (petData (screen a) now)))
        (cleared (screen a) noFieldErrors None).
  Proof.
    intros Ee Hv. unfold dispatch, handler, handleSubmit.
    rewrite validateFields_valid, Ee by done.
    destruct (spec_update (pets a) (petData (screen a) now)) as [Hr _].
    destruct (PetContextType.updatePet _ _) as [res newPets]. simpl in Hr; subst res. simpl.
    rewrite (effect_leave _ e) by (simpl; done). reflexivity.
  Qed.

Lemma cancel_eq a e :
    editingPet (screen a) = Some e ->
    dispatch provide a PressCancel =
      mkApp (pets a) (cleared (screen a) (fieldErrorMessages (screen a))
        (formErrorMessage (screen a))).
  Proof.
    intros Ee. unfold dispatch, handler. simpl.
    rewrite (effect_leave _ e) by (simpl; done). reflexivity.
  Qed.

  (** The four outcomes of a submit. *)
Lemma submit_cases a now :
    let s := screen a in
    (exists m, dispatch provide a (Submit now) =
       mkApp (pets a) (mkState (name s) (age s) (description s) (species s) (breed s)
         (searchName s) (editingPet s) m (formErrorMessage s))) \/
    (editingPet s = None /\ valid s /\ dispatch provide a (Submit now) =
       mkApp (pets a) (mkState (name s) (age s) (description s) (species s) (breed s)
         (searchName s) None noFieldErrors (Some unique_name_message))) \/
    (editingPet s = None /\ valid s /\ dispatch provide a (Submit now) =
       mkApp (pets a ++ [petData s now]) (cleared s noFieldErrors None)) \/
    (exists e, editingPet s = Some e /\ valid s /\ dispatch provide a (Submit now) =
       mkApp (snd (PetContextType.updatePet (provide (pets a)) (petData s now)))
         (cleared s noFieldErrors None)).
  Proof.
    simpl. destruct (decide (valid (screen a))) as [Hv|Hv].
    - destruct (editingPet (screen a)) as [e|] eqn:Ee.
      + right; right; right. exists e. by rewrite (submit_update_eq _ e).
      + destruct (collision_cases (pets a) (petData (screen a) now)) as [Hc|Hc].
        * right; left. by rewrite submit_add_reject_eq.
        * right; right; left. by rewrite submit_add_accept_eq.
    - left. destruct (submit_invalid_eq a now Hv) as (m & E & _). eauto.
  Qed.

  (** Events other than a submit and Cancel leave [editingPet] defined or
      unchanged, so the effect does nothing. *)
Lemma dispatch_plain a ev :
    (forall now, ev <> Submit now) -> ev <> PressCancel ->
    dispatch provide a ev = commit a (handler provide a ev).
  Proof.
    intros Hs Hc. unfold dispatch. destruct ev; try (by destruct (Hs now));
      try done; unfold effect; simpl; case_bool_decide; done.
  Qed.

  (** The Edit and Delete buttons only show registered pets. *)
Lemma listData_In l s item :
    item ∈ listData (provide l) s -> In item l.
  Proof.
    intros Hin%list_elem_of_In. unfold listData in Hin. rewrite spec_pets in Hin.
    case_bool_decide; [done|]. by apply spec_search in Hin as [? _].
  Qed.

  (** How one event changes the registry: not at all, by the append of a
      submitted pet, by an in-place update, or by a deletion. *)
Lemma dispatch_pets_cases a ev :
    let a' := dispatch provide a ev in
    pets a' = pets a \/
    (exists now, ev = Submit now /\ editingPet (screen a) = None /\ valid (screen a) /\
       pets a' = pets a ++ [petData (screen a) now]) \/
    (exists now e, ev = Submit now /\ editingPet (screen a) = Some e /\ valid (screen a) /\
       Forall2 (replaced_by (petData (screen a) now)) (pets a) (pets a')) \/
    pets a' `sublist_of` pets a.
  Proof.
    simpl. destruct ev; try (left; rewrite dispatch_plain by done; reflexivity).
    - destruct (submit_cases a now) as
        [(m & ->)|[(Ee & Hv & ->)|[(Ee & Hv & ->)|(e & Ee & Hv & ->)]]]; simpl.
      + by left.
      + by left.
      + right; left. eauto.
      + right; right; left. exists now, e. split_and!; [done..|apply spec_update].
    - right; right; right. rewrite dispatch_plain by done. apply spec_delete.
    - left. destruct (editingPet (screen a)) as [e|] eqn:Ee.
      + by rewrite (cancel_eq _ e).
      + unfold dispatch, handler, effect. simpl. by rewrite Ee, bool_decide_true.
  Qed.

  (** Every event keeps a property of all registered pets when the pet a
      submit builds from a valid form has it. *)
Lemma dispatch_pets_Forall (P : Pet.t -> Prop) a ev :
    Forall P (pets a) ->
    (forall now, ev = Submit now -> valid (screen a) -> P (petData (screen a) now)) ->
    Forall P (pets (dispatch provide a ev)).
  Proof.
    intros Hall Hnew.
    destruct (dispatch_pets_cases a ev) as
      [->|[(now & -> & _ & Hv & ->)|[(now & e & -> & _ & Hv & Hr)|Hs]]].
    - exact Hall.
    - apply Forall_app. split; [done|]. apply Forall_singleton. by apply Hnew.
    - eapply Forall2_replaced_Forall; [exact Hall|by apply Hnew|exact Hr].
    - by eapply Forall_sublist_of.
  Qed.

  (** How one offered event changes [editingPet]. *)
Lemma dispatch_editing a ev :
    enabled provide a ev = true ->
    let e' := editingPet (screen (dispatch provide a ev)) in
    e' = editingPet (screen a) \/ e' = None \/
    (exists item, ev = PressEdit item /\ In item (pets a) /\ e' = Some item).
  Proof.
    simpl. intros Hen. destruct ev; try (left; rewrite dispatch_plain by done; reflexivity).
    - destruct (submit_cases a now) as
        [(m & ->)|[(Ee & Hv & ->)|[(Ee & Hv & ->)|(e & Ee & Hv & ->)]]]; simpl; auto.
    - right; right. exists item. rewrite dispatch_plain by done. simpl.
      split; [done|split; [|done]]. apply bool_decide_eq_true in Hen. by eapply listData_In.
    - simpl in Hen. apply bool_decide_eq_true in Hen.
      destruct (editingPet (screen a)) as [e|] eqn:Ee; [|done].
      right; left. by rewrite (cancel_eq _ e).
  Qed.

  (** How one offered event changes the age field. *)
Lemma dispatch_age a ev :
    enabled provide a ev = true ->
    let g := age (screen (dispatch provide a ev)) in
    g = age (screen a) \/ g = [] \/ (exists v, g = stripNonDigits v) \/
    (exists item, In item (pets a) /\ g = Pet.age item).
  Proof.
    simpl. intros Hen. destruct ev; try (left; rewrite dispatch_plain by done; reflexivity).
    - right; right; left. exists v. by rewrite dispatch_plain.
    - destruct (submit_cases a now) as
        [(m & ->)|[(Ee & Hv & ->)|[(Ee & Hv & ->)|(e & Ee & Hv & ->)]]]; simpl; auto.
    - right; right; right. exists item. rewrite dispatch_plain by done. simpl.
      split; [|done]. apply bool_decide_eq_true in Hen. by eapply listData_In.
    - simpl in Hen. apply bool_decide_eq_true in Hen.
      destruct (editingPet (screen a)) as [e|] eqn:Ee; [|done].
      right; left. by rewrite (cancel_eq _ e).
  Qed.

  (** Only a species button changes [species]. *)
Lemma dispatch_species a ev :
    enabled provide a ev = true ->
    let sp' := species (screen (dispatch provide a ev)) in
    sp' = species (screen a) \/ In sp' SpeciesOptions.
  Proof.
    simpl. intros Hen. destruct ev; try (left; rewrite dispatch_plain by done; reflexivity).
    - right. rewrite dispatch_plain by done. simpl in *.
      apply bool_decide_eq_true, list_elem_of_In in Hen. exact Hen.
    - destruct (submit_cases a now) as
        [(m & ->)|[(Ee & Hv & ->)|[(Ee & Hv & ->)|(e & Ee & Hv & ->)]]]; simpl; auto.
    - simpl in Hen. apply bool_decide_eq_true in Hen.
      destruct (editingPet (screen a)) as [e|] eqn:Ee; [|done].
      left. by rewrite (cancel_eq _ e).
  Qed.
End ScreenFacts.

(** ** Behaviour of the screen's handlers *)

Section ScreenTheorems.
Context `{ToUpperCase} (provide : list Pet.t -> PetContextType.t) `{!PetContextSpec provide}.

  (** C11: submitting the add form with a name that collides (up to
      [toUpperCase]) with a registered pet leaves the registry and the
      entered name, age and description as they were, stays in add mode and
      shows "Pet names must be unique". *)
Theorem submit_add_rejected_keeps_form a now :
    editingPet (screen a) = None -> valid (screen a) ->
    (exists q, In q (pets a) /\ same_name q (petData (screen a) now)) ->
    let a' := dispatch provide a (Submit now) in
    pets a' = pets a /\ name (screen a') = name (screen a) /\
    age (screen a') = age (screen a) /\ description (screen a') = description (screen a) /\
    editingPet (screen a') = None /\ formErrorMessage (screen a') = Some unique_name_message.
  Proof. intros Ee Hv Hc. simpl. by rewrite submit_add_reject_eq. Qed.

  (** C12: submitting a valid add form whose name is new appends the pet
      built from the form, with the id [Date.now().toString()], at the end
      of the registry, clears the three fields and the form message. *)
Theorem submit_add_accepted a now :
    editingPet (screen a) = None -> valid (screen a) ->
    (forall q, In q (pets a) -> ~ same_name q (petData (screen a) now)) ->
    let a' := dispatch provide a (Submit now) in
    pets a' = pets a ++ [petData (screen a) now] /\
    Pet.id (petData (screen a) now) = number_to_string now /\
    name (screen a') = [] /\ age (screen a') = [] /\ description (screen a') = [] /\
    editingPet (screen a') = None /\ formErrorMessage (screen a') = None.
  Proof.
    intros Ee Hv Hc. simpl. rewrite submit_add_accept_eq by done.
    unfold petData. by rewrite Ee.
  Qed.

  (** C13: submitting a valid form in edit mode replaces, in place, the
      registered pets that carry the edited pet's id by the form's pet
      (which keeps that id), leaves edit mode and, through the effect on
      [editingPet], clears the three fields. *)
Theorem submit_update_leaves_edit_mode a e now :
    editingPet (screen a) = Some e -> valid (screen a) -> Pet.id e <> [] ->
    let a' := dispatch provide a (Submit now) in
    Pet.id (petData (screen a) now) = Pet.id e /\
    Forall2 (replaced_by (petData (screen a) now)) (pets a) (pets a') /\
    editingPet (screen a') = None /\
    name (screen a') = [] /\ age (screen a') = [] /\ description (screen a') = [] /\
    formErrorMessage (screen a') = None.
  Proof.
    intros Ee Hv Hid. simpl. rewrite (submit_update_eq _ _ e) by done. simpl.
    split; [unfold petData; rewrite Ee; by apply or_else_nonempty|].
    split; [apply spec_update|done].
  Qed.

  (** C14: Cancel leaves edit mode and the effect clears the three fields;
      the registry, the species, the breed and the messages stay. *)
Theorem cancel_clears_form a e :
    editingPet (screen a) = Some e ->
    let a' := dispatch provide a PressCancel in
    pets a' = pets a /\ editingPet (screen a') = None /\
    name (screen a') = [] /\ age (screen a') = [] /\ description (screen a') = [] /\
    species (screen a') = species (screen a) /\ breed (screen a') = breed (screen a) /\
    formErrorMessage (screen a') = formErrorMessage (screen a).
  Proof. intros Ee. simpl. by rewrite (cancel_eq _ _ e). Qed.

  (** C15: a submit with an empty name, age or description changes nothing
      but the field messages, which name exactly the empty fields; the
      message of an earlier failed add stays on screen. *)
Theorem submit_invalid_keeps_state a now :
    ~ valid (screen a) ->
    let a' := dispatch provide a (Submit now) in
    pets a' = pets a /\ editingPet (screen a') = editingPet (screen a) /\
    name (screen a') = name (screen a) /\ age (screen a') = age (screen a) /\
    description (screen a') = description (screen a) /\
    formErrorMessage (screen a') = formErrorMessage (screen a) /\
    (name (screen a) = [] <-> FieldErrorMessages.name (fieldErrorMessages (screen a')) <> []) /\
    (age (screen a) = [] <-> FieldErrorMessages.age (fieldErrorMessages (screen a')) <> []) /\
    (description (screen a) = [] <->
       FieldErrorMessages.description (fieldErrorMessages (screen a')) <> []).
  Proof.
    intros (m & E & Hm)%(submit_invalid_eq provide a now). simpl. rewrite E. simpl.
    destruct Hm as (? & ? & ?). by repeat (split; [reflexivity|]).
  Qed.
End ScreenTheorems.

(** C16: the list the screen shows, [searchName === '' ? pets :
    searchPets(searchName)], is always [searchPets(searchName)]: the
    special case of the empty query agrees with the search. *)
Theorem displayed_list_is_search `{ToUpperCase} (l : list Pet.t) (s : State) :
  listData (PetProvider l) s = searchPets l (searchName s).
Proof.
  unfold listData. case_bool_decide as E; [|done].
  rewrite E. symmetry. apply searchPets_nil.
Qed.

(** ** Witnesses *)

Lemma submit_add_rejected_keeps_form_witness :
  pets (dispatch PetProvider (mkApp [rex] (form "rex" "1" "x" None)) (Submit 9)) = [rex] /\
  formErrorMessage (screen (dispatch PetProvider (mkApp [rex] (form "rex" "1" "x" None)) (Submit 9)))
    = Some unique_name_message.
Proof.
  destruct (submit_add_rejected_keeps_form PetProvider (mkApp [rex] (form "rex" "1" "x" None)) 9)
    as (E1 & _ & _ & _ & _ & E2).
  - reflexivity.
  - split_and!; discriminate.
  - exists rex. split; [left; reflexivity|vm_compute; reflexivity].
  - split; [exact E1|exact E2].
Defined.

Lemma submit_add_accepted_witness :
  pets (dispatch PetProvider (mkApp [rex] (form "Milo" "2" "x" None)) (Submit 9)) =
    [rex; mkApp_pet "9" "Milo" "2" "x"].
Proof.
  destruct (submit_add_accepted PetProvider (mkApp [rex] (form "Milo" "2" "x" None)) 9)
    as (E1 & _).
  - reflexivity.
  - split_and!; discriminate.
  - intros q [<-|[]] E. vm_compute in E. discriminate.
  - rewrite E1. reflexivity.
Defined.

Lemma submit_update_leaves_edit_mode_witness :
  editingPet (screen (dispatch PetProvider (mkApp [rex] (form "Rex" "4" "older now" (Some rex)))
    (Submit 9))) = None.
Proof.
  destruct (submit_update_leaves_edit_mode PetProvider
    (mkApp [rex] (form "Rex" "4" "older now" (Some rex))) rex 9) as (_ & _ & E & _).
  - reflexivity.
  - split_and!; discriminate.
  - discriminate.
  - exact E.
Defined.

Lemma cancel_clears_form_witness :
  name (screen (dispatch PetProvider (mkApp [rex] (form "Rex" "3" "friendly" (Some rex)))
    PressCancel)) = [].
Proof.
  destruct (cancel_clears_form PetProvider (mkApp [rex] (form "Rex" "3" "friendly" (Some rex))) rex)
    as (_ & _ & E & _).
  - reflexivity.
  - exact E.
Defined.

Lemma submit_invalid_keeps_state_witness :
  pets (dispatch PetProvider (mkApp [rex] (form "" "3" "x" None)) (Submit 9)) = [rex].
Proof.
  destruct (submit_invalid_keeps_state PetProvider (mkApp [rex] (form "" "3" "x" None)) 9)
    as (E & _).
  - intros (Hn & _). by apply Hn.
  - exact E.
Defined.

