(* ===== verification/Modes.v ===== *)
(** * Modes: the add/edit state machine of the screen

    The specification (section 4) describes the only state machine of the
    program: the form is in Add mode when no pet is being edited and in
    Edit mode on a given pet.  Edit on a listed pet enters Edit mode and
    loads the pet's fields into the form; a valid submit or Cancel in Edit
    mode returns to Add mode and clears the form; every other event keeps
    the mode.  [mode_step] states that machine abstractly, over the events
    of [MainScreen]; [dispatch_simulates] is the refinement theorem: every
    event the screen offers moves the abstraction [mode] of the screen
    along [mode_step] and meets its obligations on the form fields. *)

From S2P Require Import Prelude JsString Types PetContext MainScreen.
From Stdlib Require Import Strings.String.

(** The abstract mode of the form. *)
Inductive Mode :=
| Adding
| Editing (p : Pet.t).

(** The abstraction function: [editingPet] of the screen (line 34). *)
Definition mode (s : State) : Mode :=
  match editingPet s with
  | None => Adding
  | Some p => Editing p
  end.

(** The events that the specification's machine reacts to. *)
Definition mode_event (ev : Event) : bool :=
  match ev with
  | Submit _ | PressEdit _ | PressCancel => true
  | _ => false
  end.

(** The machine of section 4 of the specification. *)
Inductive mode_step : Mode -> Event -> Mode -> Prop :=
| ms_edit m item : mode_step m (PressEdit item) (Editing item)
| ms_cancel p : mode_step (Editing p) PressCancel Adding
| ms_add now : mode_step Adding (Submit now) Adding
| ms_update p now : mode_step (Editing p) (Submit now) Adding
| ms_update_invalid p now : mode_step (Editing p) (Submit now) (Editing p)
| ms_other m ev : mode_event ev = false -> mode_step m ev m.

(** Entering Edit mode loads the pet's fields into the form. *)
Definition loads (item : Pet.t) (s : State) : Prop :=
  name s = Pet.name item /\ age s = Pet.age item /\
  description s = or_else (Pet.description item) [].

(** The three text fields of the form are empty. *)
Definition form_empty (s : State) : Prop :=
  name s = [] /\ age s = [] /\ description s = [].

Section ModeFacts.
Context `{ToUpperCase} (provide : list Pet.t -> PetContextType.t) `{!PetContextSpec provide}.

(** An event outside the machine keeps [editingPet]. *)
Lemma dispatch_other_editing a ev :
  mode_event ev = false ->
  editingPet (screen (dispatch provide a ev)) = editingPet (screen a).
Proof.
  intros Hm. destruct ev; try discriminate; by rewrite dispatch_plain.
Qed.

(** The outcomes of a submit, seen through [mode]. *)
Lemma submit_mode a now :
  (mode (screen (dispatch provide a (Submit now))) = mode (screen a)) \/
  (exists p, mode (screen a) = Editing p /\
     mode (screen (dispatch provide a (Submit now))) = Adding /\
     form_empty (screen (dispatch provide a (Submit now)))).
Proof.
  unfold mode. destruct (submit_cases provide a now) as
    [(m & ->)|[(Ee & Hv & ->)|[(Ee & Hv & ->)|(e & Ee & Hv & ->)]]]; simpl.
  - by left.
  - left. by rewrite Ee.
  - left. by rewrite Ee.
  - right. exists e. by rewrite Ee.
Qed.
Lemma dispatch_mode_step a ev :
  enabled provide a ev = true ->
  let s := screen a in
  let s' := screen (dispatch provide a ev) in
  mode_step (mode s) ev (mode s') /\
  (forall item, ev = PressEdit item -> loads item s') /\
  (forall p, mode s = Editing p -> mode s' = Adding -> form_empty s').
Proof.
  intros Hen. simpl. destruct (mode_event ev) eqn:Hm.
  - destruct ev; try discriminate.
    + destruct (submit_mode a now) as [E|(p & Ep & E & Hf)].
      * rewrite E. split; [|split; [done|]].
        -- destruct (mode (screen a)); constructor.
        -- intros p Ep E'. congruence.
      * rewrite Ep, E. split; [constructor|split; [done|auto]].
    + rewrite dispatch_plain by done. unfold mode. simpl.
      split; [constructor|split; [|discriminate]].
      intros i [= <-]. split_and!; reflexivity.
    + simpl in Hen. apply bool_decide_eq_true in Hen.
      destruct (editingPet (screen a)) as [e|] eqn:Ee; [|done].
      rewrite (cancel_eq provide _ e) by done. unfold mode. simpl. rewrite Ee.
      split; [constructor|split; [done|]]. intros _ _ _. split_and!; reflexivity.
  - unfold mode. rewrite (dispatch_other_editing a ev Hm).
    split; [|split].
    + destruct (editingPet (screen a)); by constructor.
    + intros item ->. discriminate.
    + intros p Ep E. rewrite E in Ep. discriminate.
Qed.
End ModeFacts.

Section ModeTheorems.
Context `{ToUpperCase} (provide : list Pet.t -> PetContextType.t) `{!PetContextSpec provide}.

(** C25: the screen refines the add/edit machine of the specification:
    every offered event moves [mode] along [mode_step]; Edit loads the
    chosen pet's name, age and description into the form; and whenever
    Edit mode is left the three fields are empty. *)
Theorem dispatch_simulates a ev :
  enabled provide a ev = true ->
  let s := screen a in
  let s' := screen (dispatch provide a ev) in
  mode_step (mode s) ev (mode s') /\
  (forall item, ev = PressEdit item -> loads item s') /\
  (forall p, mode s = Editing p -> mode s' = Adding -> form_empty s') /\
  (forall p now, ev = Submit now -> mode s = Editing p -> valid s -> mode s' = Adding).
Proof.
  intros Hen. destruct (dispatch_mode_step provide a ev Hen) as (Hs & Hl & Hf).
  split_and!; [done..|]. intros p now -> Ep Hv. unfold mode in *.
  destruct (editingPet (screen a)) as [e|] eqn:Ee; [|discriminate].
  by rewrite (submit_update_eq provide _ e).
Qed.
End ModeTheorems.

(** ** Witness *)

Lemma dispatch_simulates_witness :
  loads rex (screen (dispatch PetProvider (mkApp [rex] (form "" "" "" None)) (PressEdit rex))).
Proof.
  destruct (dispatch_simulates PetProvider (mkApp [rex] (form "" "" "" None)) (PressEdit rex))
    as (_ & Hl & _).
  - reflexivity.
  - exact (Hl rex eq_refl).
Defined.
