(* ===== verification/Reachable.v ===== *)
(** * Reachable: invariants of the states the screen can reach

    The app states [MainScreen.reachable] from the first render through
    events the render offers, and the clock relation [tick] between the
    values [Date.now()] returns.  By induction on [reachable]: ids stay
    distinct while the clock strictly increases, ages are digit strings,
    the breed lookup never throws, no pet gets a category or an image.
    Concrete runs through [run] show the reachable states the
    specification excludes: two pets with one id (the same millisecond
    read twice), two names equal up to [toUpperCase] (by an edit), and a
    breed of the old species kept after switching species. *)

From S2P Require Import Prelude JsString Types PetContext MainScreen.
From Stdlib Require Import Strings.String.

(** A string of decimal digits only. *)
Definition digits (s : jsstring) : Prop := Forall (fun c => isDigit c = true) s.

(** An id written by a submit at a clock value no later than [c]. *)
Definition id_stamped (c : N) (p : Pet.t) : Prop :=
  exists t, (t <= c)%N /\ Pet.id p = number_to_string t.

(** The invariant on ids of reachable states under a strictly increasing
    clock: registered ids are distinct, and every registered or edited
    pet carries the text of a clock value already read. *)
Definition ids_inv (a : App) (c : N) : Prop :=
  ids_unique (pets a) /\ Forall (id_stamped c) (pets a) /\
  (forall e, editingPet (screen a) = Some e -> id_stamped c e).

(** Scenarios, run on [PetProvider] from the first render at clock 0. *)
Definition scenario (tick : N -> N -> bool) (evs : list Event) : App * N :=
  default (initApp, 0%N) (run PetProvider tick initApp 0 evs).

Definition fill (n a d : string) : list Event :=
  [ChangeName (js n); ChangeAge (js a); ChangeDescription (js d)].

(** Add Rex at 5 ms and Milo at 6 ms. *)
Definition add_rex_milo : list Event :=
  fill "Rex" "3" "friendly" ++ [Submit 5] ++ fill "Milo" "2" "x" ++ [Submit 6].

(** Two adds that read the same millisecond from [Date.now()]. *)
Definition add_same_ms : list Event :=
  fill "Rex" "3" "friendly" ++ [Submit 5] ++ fill "Milo" "2" "x" ++ [Submit 5].

(** Edit Milo and rename it "REX". *)
Definition rename_milo_rex : list Event :=
  add_rex_milo ++
  [PressEdit (mkApp_pet "6" "Milo" "2" "x"); ChangeName (js "REX"); Submit 7].

(** Choose Dog, then Pug, then switch to Cat. *)
Definition switch_species : list Event :=
  [PressSpecies (js "Dog"); PressBreed (js "Pug"); PressSpecies (js "Cat")].

(** ** Invariants of reachable states *)

Lemma run_reachable `{ToUpperCase} provide tick a c evs a' c' :
  reachable provide tick a c -> run provide tick a c evs = Some (a', c') ->
  reachable provide tick a' c'.
Proof.
  revert a c. induction evs as [|ev evs IH]; simpl; intros a c R E; [congruence|].
  destruct (enabled provide a ev && clock_ok tick c ev) eqn:Ok; [|discriminate].
  apply andb_true_iff in Ok as [Hen Hck]. eapply IH; [|exact E]. by apply reach_step.
Qed.

Lemma id_stamped_mono c c' p : (c <= c')%N -> id_stamped c p -> id_stamped c' p.
Proof. intros Hc (t & Ht & Hid). exists t. split; [lia|done]. Qed.

Lemma clock_mono_lt c ev : clock_ok N.ltb c ev = true -> (c <= event_clock c ev)%N.
Proof. destruct ev; simpl; try lia. intros Hlt%N.ltb_lt. lia. Qed.

(** The id of the pet a submit builds is stamped at the submit's clock. *)
Lemma petData_id_stamped s c now :
  (c < now)%N -> (forall e, editingPet s = Some e -> id_stamped c e) ->
  id_stamped now (petData s now).
Proof.
  intros Hlt He. unfold petData, id_stamped. simpl.
  destruct (editingPet s) as [e|]; simpl.
  - destruct (He e eq_refl) as (t & Ht & Hid). exists t. split; [lia|].
    rewrite Hid. apply or_else_nonempty, number_to_string_nonempty.
  - exists now. split; [lia|done].
Qed.

Lemma species_safe s :
  species s = [] \/ In (species s) SpeciesOptions -> breedButtons s <> None.
Proof.
  unfold breedButtons. case_bool_decide as E; [discriminate|].
  intros [E'|Hin]; [contradiction|]. simpl in Hin.
  destruct Hin as [<-|[<-|[]]]; vm_compute; discriminate.
Qed.

Section ReachableFacts.
Context `{ToUpperCase} (provide : list Pet.t -> PetContextType.t) `{!PetContextSpec provide}.

Lemma ids_inv_step a c ev :
    ids_inv a c -> enabled provide a ev = true -> clock_ok N.ltb c ev = true ->
    ids_inv (dispatch provide a ev) (event_clock c ev).
  Proof.
    intros (Hu & Hs & He) Hen Hck. pose proof (clock_mono_lt c ev Hck) as Hmono.
    split; [|split].
    - destruct (dispatch_pets_cases provide a ev) as
        [->|[(now & -> & Ee & Hv & ->)|[(now & e & -> & Ee & Hv & Hr)|Hsub]]].
      + done.
      + apply NoDup_map_snoc; [done|]. intros q Hq Heq. simpl in Hck. apply N.ltb_lt in Hck.
        apply List.Forall_forall with (x := q) in Hs as (t & Ht & Hid); [|done].
        unfold petData in Heq. rewrite Ee in Heq. simpl in Heq. rewrite Hid in Heq.
        apply number_to_string_inj in Heq. lia.
      + unfold ids_unique. by rewrite (Forall2_replaced_ids _ _ _ Hr).
      + by eapply NoDup_map_sublist.
    - apply (dispatch_pets_Forall provide).
      + eapply Forall_impl; [exact Hs|]. intros p. by apply id_stamped_mono.
      + intros now -> _. simpl in Hck. apply N.ltb_lt in Hck.
        by apply (petData_id_stamped _ c).
    - intros e' He'. destruct (dispatch_editing provide a ev Hen) as [E|[E|(item & -> & Hin & E)]];
        rewrite E in He'.
      + by apply (id_stamped_mono c), He.
      + discriminate.
      + injection He' as <-. by apply List.Forall_forall with (x := item) in Hs.
  Qed.

  (** The species of a reachable state is empty or a species button's. *)
Lemma reachable_species tick a c :
    reachable provide tick a c -> species (screen a) = [] \/ In (species (screen a)) SpeciesOptions.
  Proof.
    induction 1 as [c|a c ev R IH Hen Hck]; [by left|].
    destruct (dispatch_species provide a ev Hen) as [->|Hin]; [exact IH|by right].
  Qed.
End ReachableFacts.

Section ReachableTheorems.
Context `{ToUpperCase} (provide : list Pet.t -> PetContextType.t) `{!PetContextSpec provide}.

  (** C17: while [Date.now()] strictly increases between submits, every
      reachable registry has pairwise distinct ids, although neither the
      screen nor the registry ever checks an id. *)
Theorem reachable_ids_unique a c :
    reachable provide N.ltb a c -> ids_unique (pets a).
  Proof.
    intros R. enough (Hi : ids_inv a c) by apply Hi.
    induction R as [c|a c ev R IH Hen Hck]; [|by apply ids_inv_step].
    split; [constructor|split; [constructor|discriminate]].
  Qed.

  (** C19: in every reachable state the age field and the age of every
      registered pet consist of decimal digits only, whatever the clock. *)
Theorem reachable_ages_digits tick a c :
    reachable provide tick a c ->
    Forall (fun p => digits (Pet.age p)) (pets a) /\ digits (age (screen a)).
  Proof.
    induction 1 as [c|a c ev R (Hp & Ha) Hen Hck]; [split; constructor|]. split.
    - apply (dispatch_pets_Forall provide); [done|]. intros now -> _. exact Ha.
    - destruct (dispatch_age provide a ev Hen) as [->|[->|[(v & ->)|(item & Hin & ->)]]].
      + exact Ha.
      + constructor.
      + apply stripNonDigits_digits.
      + by apply List.Forall_forall with (x := item) in Hp.
  Qed.

  (** Rendering never throws: in every reachable state the species is
      empty or one of [SpeciesOptions], so the lookup
      [PetCategories.filter(...)[0].breeds] finds a category. *)
Theorem reachable_render_safe tick a c :
    reachable provide tick a c -> breedButtons (screen a) <> None.
  Proof. intros R. by apply species_safe, (reachable_species _ tick _ c). Qed.

  (** C22: no registered pet ever has a category or an image: the form's
      species and breed never reach the record [handleSubmit] builds. *)
Theorem reachable_no_category tick a c :
    reachable provide tick a c ->
    Forall (fun p => Pet.petCategory p = None /\ Pet.image p = None) (pets a).
  Proof.
    induction 1 as [c|a c ev R IH Hen Hck]; [constructor|].
    apply (dispatch_pets_Forall provide); [done|]. intros now _ _. done.
  Qed.
End ReachableTheorems.

(** ** Reachable states the specification excludes *)

(** C18: when [Date.now()] returns the same millisecond for two submits,
    two pets get the id "5"; deleting one of them then deletes both. *)
Theorem same_millisecond_duplicate_ids :
  let (a, c) := scenario N.leb add_same_ms in
  reachable PetProvider N.leb a c /\ ~ ids_unique (pets a) /\
  pets (dispatch PetProvider a (PressDelete (mkApp_pet "5" "Rex" "3" "friendly"))) = [].
Proof.
  unfold scenario. vm_compute run. split_and!.
  - apply (run_reachable PetProvider N.leb initApp 0 add_same_ms); [constructor|].
    vm_compute. reflexivity.
  - refute_eval.
  - reflexivity.
Qed.

(** C21: the screen can reach a registry with two names equal up to
    [toUpperCase]: add Rex and Milo, edit Milo, rename it "REX", submit. *)
Theorem edit_breaks_name_uniqueness :
  let (a, c) := scenario N.ltb rename_milo_rex in
  reachable PetProvider N.ltb a c /\ ~ names_unique (pets a).
Proof.
  unfold scenario. vm_compute run. split.
  - apply (run_reachable PetProvider N.ltb initApp 0 rename_milo_rex); [constructor|].
    vm_compute. reflexivity.
  - refute_eval.
Qed.

(** C23: switching the species keeps the chosen breed: Dog, Pug, then Cat
    leaves the breed "Pug", which is not a breed of Cat. *)
Theorem switch_species_keeps_breed :
  let (a, c) := scenario N.ltb switch_species in
  reachable PetProvider N.ltb a c /\ species (screen a) = js "Cat" /\
  breed (screen a) = js "Pug" /\
  exists bs, breedButtons (screen a) = Some bs /\ ~ In (breed (screen a)) bs.
Proof.
  unfold scenario. vm_compute run. split_and!.
  - apply (run_reachable PetProvider N.ltb initApp 0 switch_species); [constructor|].
    vm_compute. reflexivity.
  - reflexivity.
  - reflexivity.
  - eexists. split; [vm_compute; reflexivity|]. simpl.
    intros H. repeat (destruct H as [H|H]; [vm_compute in H; discriminate|]). exact H.
Qed.

(** ** Witnesses *)

Lemma reachable_ids_unique_witness :
  ids_unique (pets (fst (scenario N.ltb add_rex_milo))).
Proof.
  apply (reachable_ids_unique PetProvider _ (snd (scenario N.ltb add_rex_milo))).
  apply (run_reachable PetProvider N.ltb initApp 0 add_rex_milo); [constructor|].
  vm_compute. reflexivity.
Defined.

Lemma reachable_ages_digits_witness :
  digits (age (screen (fst (scenario N.ltb (fill "Rex" "3y" "x"))))).
Proof.
  apply (reachable_ages_digits PetProvider N.ltb _ (snd (scenario N.ltb (fill "Rex" "3y" "x")))).
  apply (run_reachable PetProvider N.ltb initApp 0 (fill "Rex" "3y" "x")); [constructor|].
  vm_compute. reflexivity.
Defined.

Lemma reachable_no_category_witness :
  Forall (fun p => Pet.petCategory p = None /\ Pet.image p = None)
    (pets (fst (scenario N.ltb (switch_species ++ add_rex_milo)))).
Proof.
  apply (reachable_no_category PetProvider N.ltb _
    (snd (scenario N.ltb (switch_species ++ add_rex_milo)))).
  apply (run_reachable PetProvider N.ltb initApp 0 (switch_species ++ add_rex_milo));
    [constructor|].
  vm_compute. reflexivity.
Defined.

