(* ===== verification/View.v ===== *)
(** * View: what [MainScreen] renders

    The JSX of [MainScreen.tsx] (lines 71-98 and 132-269) as a function
    from the screen's state and the context value to the texts and
    controls the user sees: the header, the values of the three text
    inputs, the red field messages, the species buttons, the breed
    section, the submit label, the Cancel button, the form message and the
    items of the list.  [render] returns [None] when rendering throws (the
    breed lookup [PetCategories.filter(...)[0].breeds] on a species with
    no category).  A JSX [s && <Text>..</Text>] on a string [s] renders the
    element only when [s] is non-empty ([textIf]).

    The theorems read the render after the handlers of [MainScreen]: what
    the user sees after a rejected add, after an invalid submit, after
    Edit and after Cancel; and, with the invariants of [Reachable], that
    every reachable state renders consistently. *)

From S2P Require Import Prelude JsString Types PetContext MainScreen Reachable.
From Stdlib Require Import Strings.String.

(** [{s && <Text>{s}</Text>}] for a string [s]: shown when truthy. *)
Definition textIf (s : jsstring) : option jsstring :=
  match s with [] => None | _ => Some s end.

(** The texts of one list item (lines 71-76): the description line only
    when [item.description] is truthy. *)
Definition renderPetItem (item : Pet.t) : list jsstring :=
  [js "Name: " ++ Pet.name item; js "Age: " ++ Pet.age item] ++
  match Pet.description item with
  | Some ((_ :: _) as d) => [js "Description: " ++ d]
  | _ => []
  end.

(** The rendered screen. *)
Record View := mkView {
  headerText : jsstring;                     (* line 135 *)
  nameValue : jsstring;                      (* line 144 *)
  nameError : option jsstring;               (* lines 148-152 *)
  ageValue : jsstring;                       (* line 160 *)
  ageError : option jsstring;                (* lines 165-169 *)
  descriptionValue : jsstring;               (* line 177 *)
  descriptionError : option jsstring;        (* lines 183-187 *)
  speciesButtons : list jsstring;            (* lines 194-201 *)
  breedSection : option (list jsstring);     (* lines 203-221 *)
  submitLabel : jsstring;                    (* line 227 *)
  cancelShown : bool;                        (* lines 230-237 *)
  formError : option jsstring;               (* lines 239-243 *)
  searchValue : jsstring;                    (* line 255 *)
  items : list (list jsstring)               (* lines 262-266 *)
}.

(** [species && (...)] (lines 203-221): no section for the empty species,
    the breed buttons otherwise; [None] when the lookup throws. *)
Definition renderBreedSection (s : State) : option (option (list jsstring)) :=
  if species s === [] then Some None
  else match breedsOf (species s) with
       | Some bs => Some (Some (default [] bs))
       | None => None
       end.

(** [editingPet] as a JSX condition. *)
Definition editing (s : State) : bool :=
  match editingPet s with Some _ => true | None => false end.

(** The render of [MainScreen] (lines 132-269). *)
Definition render (ctx : PetContextType.t) (s : State) : option View :=
  match renderBreedSection s with
  | None => None
  | Some section =>
      Some {|
        headerText := if editing s then js "Updating a Pet" else js "Create a New Pet";
        nameValue := name s;
        nameError := textIf (FieldErrorMessages.name (fieldErrorMessages s));
        ageValue := age s;
        ageError := textIf (FieldErrorMessages.age (fieldErrorMessages s));
        descriptionValue := description s;
        descriptionError := textIf (FieldErrorMessages.description (fieldErrorMessages s));
        speciesButtons := SpeciesOptions;
        breedSection := section;
        submitLabel := if editing s then js "Update Pet" else js "Add Pet";
        cancelShown := editing s;
        formError := match formErrorMessage s with Some m => textIf m | None => None end;
        searchValue := searchName s;
        items := List.map renderPetItem (listData ctx s)
      |}
  end.

(** The species is empty or one of the species buttons. *)
Definition species_ok (s : State) : Prop :=
  species s = [] \/ In (species s) SpeciesOptions.

Lemma renderBreedSection_ok s :
  species_ok s -> exists sec, renderBreedSection s = Some sec.
Proof.
  unfold renderBreedSection. case_bool_decide as E; [eauto|].
  intros [E'|Hin]; [contradiction|]. simpl in Hin.
  destruct Hin as [<-|[<-|[]]]; vm_compute; eauto.
Qed.

(** The render of a screen whose species is valid, field by field. *)
Lemma render_ok ctx s :
  species_ok s ->
  exists v, render ctx s = Some v /\
    headerText v = (if editing s then js "Updating a Pet" else js "Create a New Pet") /\
    submitLabel v = (if editing s then js "Update Pet" else js "Add Pet") /\
    cancelShown v = editing s /\
    nameValue v = name s /\ ageValue v = age s /\ descriptionValue v = description s /\
    nameError v = textIf (FieldErrorMessages.name (fieldErrorMessages s)) /\
    ageError v = textIf (FieldErrorMessages.age (fieldErrorMessages s)) /\
    descriptionError v = textIf (FieldErrorMessages.description (fieldErrorMessages s)) /\
    formError v = (match formErrorMessage s with Some m => textIf m | None => None end) /\
    items v = List.map renderPetItem (listData ctx s).
Proof.
  intros (sec & Hs)%renderBreedSection_ok. unfold render. rewrite Hs.
  eexists. split; [reflexivity|]. done.
Qed.

Lemma textIf_nonempty (m : jsstring) : m <> [] -> textIf m = Some m.
Proof. by destruct m. Qed.

Lemma textIf_None_iff (s : jsstring) : textIf s <> None <-> s <> [].
Proof. destruct s; simpl; split; congruence. Qed.

(** Open the render of the goal's screen with [render_ok]. *)
Ltac open_render Hs :=
  match goal with
  | |- exists v, render ?c ?s = Some v /\ _ =>
      let v := fresh "v" in
      destruct (render_ok c s) as (v & Hr & Hh & Hl & Hc & Hn & Ha & Hd & En & Ea & Ed & Hf & Hi);
      [exact Hs|exists v; split; [exact Hr|]; simpl in Hh, Hl, Hc, Hn, Ha, Hd, En, Ea, Ed, Hf, Hi]
  end.

(** ** What the user sees after each handler *)

Section ViewTheorems.
Context `{ToUpperCase} (provide : list Pet.t -> PetContextType.t) `{!PetContextSpec provide}.

(** C26: after a rejected add the screen still shows "Create a New Pet",
    the three inputs still show what the user typed, and the form message
    "Pet names must be unique" is displayed (specification, section 7). *)
Theorem view_after_rejected_add a now :
  editingPet (screen a) = None -> valid (screen a) -> species_ok (screen a) ->
  (exists q, In q (pets a) /\ same_name q (petData (screen a) now)) ->
  let a' := dispatch provide a (Submit now) in
  exists v, render (provide (pets a')) (screen a') = Some v /\
    headerText v = js "Create a New Pet" /\ nameValue v = name (screen a) /\
    ageValue v = age (screen a) /\ descriptionValue v = description (screen a) /\
    formError v = Some unique_name_message.
Proof.
  intros Ee Hv Hs Hcol. simpl. rewrite (submit_add_reject_eq provide) by done.
  open_render Hs. by rewrite Hh, Hn, Ha, Hd, Hf.
Qed.

(** C27: after a submit with an empty required field, a red message is
    shown under exactly the empty fields. *)
Theorem view_after_invalid_submit a now :
  ~ valid (screen a) -> species_ok (screen a) ->
  let a' := dispatch provide a (Submit now) in
  exists v, render (provide (pets a')) (screen a') = Some v /\
    (nameError v <> None <-> name (screen a) = []) /\
    (ageError v <> None <-> age (screen a) = []) /\
    (descriptionError v <> None <-> description (screen a) = []).
Proof.
  intros Hv Hs. destruct (submit_invalid_eq provide a now Hv) as (m & E & Hn' & Ha' & Hd').
  simpl. rewrite E. open_render Hs.
  rewrite En, Ea, Ed, !textIf_None_iff. split_and!; symmetry; assumption.
Qed.

(** C28: after Edit on a listed pet the screen reads "Updating a Pet",
    the submit button "Update Pet", Cancel is shown, and the inputs show
    the pet's name, age and description. *)
Theorem view_after_edit_press a item :
  enabled provide a (PressEdit item) = true -> species_ok (screen a) ->
  let a' := dispatch provide a (PressEdit item) in
  exists v, render (provide (pets a')) (screen a') = Some v /\
    headerText v = js "Updating a Pet" /\ submitLabel v = js "Update Pet" /\
    cancelShown v = true /\ nameValue v = Pet.name item /\ ageValue v = Pet.age item /\
    descriptionValue v = or_else (Pet.description item) [].
Proof.
  intros _ Hs. simpl. rewrite (dispatch_plain provide) by done.
  open_render Hs. by rewrite Hh, Hl, Hc, Hn, Ha, Hd.
Qed.

(** C29: after Cancel the screen reads "Create a New Pet", the submit
    button "Add Pet", Cancel is gone and the three inputs are empty. *)
Theorem view_after_cancel a e :
  editingPet (screen a) = Some e -> species_ok (screen a) ->
  let a' := dispatch provide a PressCancel in
  exists v, render (provide (pets a')) (screen a') = Some v /\
    headerText v = js "Create a New Pet" /\ submitLabel v = js "Add Pet" /\
    cancelShown v = false /\ nameValue v = [] /\ ageValue v = [] /\ descriptionValue v = [].
Proof.
  intros Ee Hs. simpl. rewrite (cancel_eq provide _ e) by done.
  open_render Hs. by rewrite Hh, Hl, Hc, Hn, Ha, Hd.
Qed.

(** C34: every reachable state renders without throwing, and the render
    is consistent: the header reads "Updating a Pet" and the submit
    button "Update Pet" exactly when Cancel is shown, which is exactly
    when a pet is being edited, and every list item shown is the
    rendering of a registered pet. *)
Theorem reachable_render_consistent tick a c :
  reachable provide tick a c ->
  exists v, render (provide (pets a)) (screen a) = Some v /\
    cancelShown v = editing (screen a) /\
    (headerText v = js "Updating a Pet" <-> cancelShown v = true) /\
    (submitLabel v = js "Update Pet" <-> cancelShown v = true) /\
    (forall it, In it (items v) -> exists p, In p (pets a) /\ it = renderPetItem p).
Proof.
  intros R. pose proof (reachable_species provide tick a c R) as Hs.
  open_render Hs. split_and!; [done| | |].
  - rewrite Hh, Hc. by destruct (editing (screen a)).
  - rewrite Hl, Hc. by destruct (editing (screen a)).
  - intros it Hit. rewrite Hi in Hit. apply in_map_iff in Hit as (p & <- & Hp).
    exists p. split; [|done]. apply (listData_In provide (pets a) (screen a)).
    by apply list_elem_of_In.
Qed.
End ViewTheorems.

(** ** Witnesses *)

Lemma view_after_rejected_add_witness :
  let a' := dispatch PetProvider (mkApp [rex] (form "rex" "1" "x" None)) (Submit 9) in
  exists v, render (PetProvider (pets a')) (screen a') = Some v /\
    formError v = Some unique_name_message.
Proof.
  destruct (view_after_rejected_add PetProvider (mkApp [rex] (form "rex" "1" "x" None)) 9)
    as (v & Hr & _ & _ & _ & _ & Hf).
  - reflexivity.
  - split_and!; discriminate.
  - left. reflexivity.
  - exists rex. split; [left; reflexivity|vm_compute; reflexivity].
  - exists v. split; [exact Hr|exact Hf].
Defined.

Lemma view_after_invalid_submit_witness :
  let a' := dispatch PetProvider (mkApp [rex] (form "" "3" "x" None)) (Submit 9) in
  exists v, render (PetProvider (pets a')) (screen a') = Some v /\ nameError v <> None.
Proof.
  destruct (view_after_invalid_submit PetProvider (mkApp [rex] (form "" "3" "x" None)) 9)
    as (v & Hr & Hn & _).
  - intros (Hn & _). by apply Hn.
  - left. reflexivity.
  - exists v. split; [exact Hr|]. apply Hn. reflexivity.
Defined.

Lemma view_after_edit_press_witness :
  let a' := dispatch PetProvider (mkApp [rex] (form "" "" "" None)) (PressEdit rex) in
  exists v, render (PetProvider (pets a')) (screen a') = Some v /\
    headerText v = js "Updating a Pet" /\ nameValue v = js "Rex".
Proof.
  destruct (view_after_edit_press PetProvider (mkApp [rex] (form "" "" "" None)) rex)
    as (v & Hr & Hh & _ & _ & Hn & _).
  - reflexivity.
  - left. reflexivity.
  - exists v. split_and!; assumption.
Defined.

Lemma view_after_cancel_witness :
  let a' := dispatch PetProvider (mkApp [rex] (form "Rex" "3" "friendly" (Some rex))) PressCancel in
  exists v, render (PetProvider (pets a')) (screen a') = Some v /\
    headerText v = js "Create a New Pet" /\ cancelShown v = false.
Proof.
  destruct (view_after_cancel PetProvider (mkApp [rex] (form "Rex" "3" "friendly" (Some rex))) rex)
    as (v & Hr & Hh & _ & Hc & _).
  - reflexivity.
  - left. reflexivity.
  - exists v. split_and!; assumption.
Defined.

Lemma reachable_render_consistent_witness :
  exists v, render (PetProvider (pets (fst (scenario N.ltb add_rex_milo))))
      (screen (fst (scenario N.ltb add_rex_milo))) = Some v /\ cancelShown v = false.
Proof.
  destruct (reachable_render_consistent PetProvider N.ltb (fst (scenario N.ltb add_rex_milo))
    (snd (scenario N.ltb add_rex_milo))) as (v & Hr & Hc & _).
  - apply (run_reachable PetProvider N.ltb initApp 0 add_rex_milo); [constructor|].
    vm_compute. reflexivity.
  - exists v. split; [exact Hr|]. rewrite Hc. vm_compute. reflexivity.
Defined.
