(* ===== verification/Scenarios.v ===== *)
(** * Scenarios: whole traces of the screen

    Properties of sequences of events run through [MainScreen.run]:
    from every state the user can add a pet with a fresh name (Cancel if
    editing, type the three fields, submit); one event grows the registry
    by at most one pet and only Delete shrinks it; every registered pet
    has the fields the form requires; and a pet deleted while it is being
    edited swallows the edit: the submit reports success, writes nothing
    and leaves Edit mode. *)

From S2P Require Import Prelude JsString Types PetContext MainScreen Reachable.
From Stdlib Require Import Strings.String.

(** Leave Edit mode when the form is in it: the Cancel button. *)
Definition leave_edit (s : State) : list Event :=
  match editingPet s with Some _ => [PressCancel] | None => [] end.

(** Type a pet into the form and press the submit button. *)
Definition type_and_submit (n g d : jsstring) (now : N) : list Event :=
  [ChangeName n; ChangeAge g; ChangeDescription d; Submit now].

(** The number of submits of a trace: the reads of [Date.now()]. *)
Definition submits (evs : list Event) : nat :=
  List.length (List.filter (fun ev => match ev with Submit _ => true | _ => false end) evs).

(** The number of Delete presses of a trace. *)
Definition deletes (evs : list Event) : nat :=
  List.length (List.filter (fun ev => match ev with PressDelete _ => true | _ => false end) evs).

(** The fields a registered pet always has: a non-empty id, name and
    age, and a description that is present and non-empty. *)
Definition pet_wf (p : Pet.t) : Prop :=
  Pet.id p <> [] /\ Pet.name p <> [] /\ Pet.age p <> [] /\
  exists d, Pet.description p = Some d /\ d <> [].

(** Rex as the screen registers it from a submit at 1 ms. *)
Definition rex1 : Pet.t := mkApp_pet "1" "Rex" "3" "friendly".

(** Add Rex, edit it, delete it from the list while editing, rename. *)
Definition edit_deleted : list Event :=
  type_and_submit (js "Rex") (js "3") (js "friendly") 1 ++
  [PressEdit rex1; PressDelete rex1; ChangeName (js "Rexy")].

(** ** Running traces *)

Section RunFacts.
Context `{ToUpperCase} (provide : list Pet.t -> PetContextType.t) (tick : N -> N -> bool).

Lemma run_app a c evs1 evs2 :
  run provide tick a c (evs1 ++ evs2) =
  match run provide tick a c evs1 with
  | Some (a', c') => run provide tick a' c' evs2
  | None => None
  end.
Proof.
  revert a c. induction evs1 as [|ev evs IH]; intros a c; simpl; [done|].
  destruct (enabled provide a ev && clock_ok tick c ev); [apply IH|done].
Qed.

Lemma run_step a c ev evs :
  enabled provide a ev = true -> clock_ok tick c ev = true ->
  run provide tick a c (ev :: evs) = run provide tick (dispatch provide a ev) (event_clock c ev) evs.
Proof. intros He Hc. simpl. by rewrite He, Hc. Qed.
End RunFacts.

Section ScenarioFacts.
Context `{ToUpperCase} (provide : list Pet.t -> PetContextType.t) `{!PetContextSpec provide}.
Variable tick : N -> N -> bool.

(** Cancel, when shown, leaves Edit mode and keeps registry and clock. *)
Lemma run_leave_edit a c :
  exists a0, run provide tick a c (leave_edit (screen a)) = Some (a0, c) /\
    pets a0 = pets a /\ editingPet (screen a0) = None.
Proof.
  unfold leave_edit. destruct (editingPet (screen a)) as [e|] eqn:Ee; [|by eexists].
  rewrite run_step by (simpl; rewrite ?Ee; done). simpl.
  rewrite (cancel_eq provide _ e) by done. by eexists.
Qed.

(** Typing the three fields outside Edit mode and submitting. *)
Lemma run_type_and_submit a c n g d now :
  editingPet (screen a) = None -> tick c now = true ->
  run provide tick a c (type_and_submit n g d now) =
  Some (dispatch provide
          (mkApp (pets a) (mkState n (stripNonDigits g) d (species (screen a)) (breed (screen a))
             (searchName (screen a)) None (fieldErrorMessages (screen a))
             (formErrorMessage (screen a))))
          (Submit now), now).
Proof.
  intros Ee Ht. unfold type_and_submit.
  do 3 (rewrite run_step by done; rewrite (dispatch_plain provide) by done).
  rewrite run_step by done. simpl. by rewrite Ee.
Qed.

(** One event adds at most the one pet a submit builds; only Delete
    removes pets. *)
Lemma dispatch_length a ev :
  (List.length (pets (dispatch provide a ev)) <=
     List.length (pets a) + match ev with Submit _ => 1 | _ => 0 end)%nat /\
  (match ev with PressDelete _ => True | _ => List.length (pets a) <= List.length (pets (dispatch provide a ev)) end)%nat.
Proof.
  destruct ev as [v|v|v|v|sp|b|now|item|item|];
    try (rewrite (dispatch_plain provide) by done; simpl; lia).
  - destruct (submit_cases provide a now) as
      [(m & ->)|[(_ & _ & ->)|[(_ & _ & ->)|(e & _ & _ & ->)]]]; simpl; rewrite ?length_app;
      simpl; try lia.
    destruct (spec_update (pets a) (petData (screen a) now)) as [_ Hr%Forall2_length]. lia.
  - rewrite (dispatch_plain provide) by done. simpl.
    destruct (spec_delete (pets a) (Pet.id item)) as [Hs%sublist_length _]. split; [lia|done].
  - destruct (editingPet (screen a)) as [e|] eqn:Ee.
    + rewrite (cancel_eq provide _ e) by done. simpl. lia.
    + unfold dispatch, handler, effect. simpl. rewrite Ee, bool_decide_true by done. simpl. lia.
Qed.

(** The pet a valid submit builds has the required fields. *)
Lemma petData_wf s now : valid s -> pet_wf (petData s now).
Proof.
  intros (Hn & Ha & Hd). split_and!; [|done|done|by eexists].
  unfold petData. simpl. destruct (editingPet s) as [e|]; simpl.
  - destruct (Pet.id e) as [|x xs]; [apply number_to_string_nonempty|discriminate].
  - apply number_to_string_nonempty.
Qed.

(** A submit in Edit mode of a pet whose id is no longer registered. *)
Lemma replaced_by_absent p l l' :
  (forall q, In q l -> Pet.id q <> Pet.id p) -> Forall2 (replaced_by p) l l' -> l' = l.
Proof.
  intros Hn H2. induction H2 as [|q q' l l' Hr _ IH]; [done|].
  rewrite Hr, decide_False by (apply Hn; left; done). f_equal.
  apply IH. intros r Hr'. apply Hn. by right.
Qed.

Lemma petData_id_edit s e now :
  editingPet s = Some e -> Pet.id e <> [] -> Pet.id (petData s now) = Pet.id e.
Proof. intros Ee He. unfold petData. rewrite Ee. simpl. by apply or_else_nonempty. Qed.

End ScenarioFacts.

(** ** Properties of traces *)

Section ScenarioTheorems.
Context `{ToUpperCase} (provide : list Pet.t -> PetContextType.t) `{!PetContextSpec provide}.

(** C30: from every state the user can add a pet whose name is fresh:
    Cancel when editing, type a name, an age with a digit and a
    description, and submit at a later clock value; the run succeeds,
    appends the pet with id [Date.now().toString()] and clears the form. *)
Theorem fresh_pet_can_be_added tick a c n g d now :
  n <> [] -> stripNonDigits g <> [] -> d <> [] -> tick c now = true ->
  (forall q, In q (pets a) -> toUpperCase (Pet.name q) <> toUpperCase n) ->
  exists a', run provide tick a c (leave_edit (screen a) ++ type_and_submit n g d now) =
      Some (a', now) /\
    pets a' = pets a ++ [{| Pet.id := number_to_string now; Pet.name := n;
                            Pet.age := stripNonDigits g; Pet.petCategory := None;
                            Pet.image := None; Pet.description := Some d |}] /\
    editingPet (screen a') = None /\ name (screen a') = [] /\ age (screen a') = [].
Proof.
  intros Hn Hg Hd Ht Hf. destruct (run_leave_edit provide tick a c) as (a0 & E0 & Hp & He).
  rewrite run_app, E0, (run_type_and_submit provide) by done.
  rewrite (submit_add_accept_eq provide); [|done|split_and!; done|].
  - eexists. split; [reflexivity|]. simpl. by rewrite Hp.
  - simpl. rewrite Hp. intros q Hq. apply Hf, Hq.
Qed.

(** C31: the registry grows by at most one pet per submit: after any run
    it holds at most its former size plus the number of submits, and a
    run without Delete never shrinks it. *)
Theorem run_registry_bounds tick a c evs a' c' :
  run provide tick a c evs = Some (a', c') ->
  (List.length (pets a') <= List.length (pets a) + submits evs)%nat /\
  (deletes evs = 0 -> List.length (pets a) <= List.length (pets a'))%nat.
Proof.
  revert a c. induction evs as [|ev evs IH]; intros a c; simpl; [intros [= -> ->]; lia|].
  destruct (enabled provide a ev && clock_ok tick c ev); [|discriminate].
  intros (Hu & Hl)%IH. destruct (dispatch_length provide a ev) as [Hu' Hl'].
  unfold submits, deletes in *. destruct ev; simpl in *; split; lia.
Qed.

(** C32: every registered pet of a reachable state is well formed: its
    id, name and age are non-empty and its description is present and
    non-empty, although [Pet] declares [description] optional. *)
Theorem reachable_pets_wf tick a c :
  reachable provide tick a c -> Forall pet_wf (pets a).
Proof.
  induction 1 as [c|a c ev R IH Hen Hck]; [constructor|].
  apply (dispatch_pets_Forall provide); [done|]. intros now _. apply petData_wf.
Qed.

(** C33: an edit of a pet deleted while it was being edited is lost
    without an error: [updatePet] reports success, the registry is
    unchanged, the form is cleared and Edit mode is left. *)
Theorem submit_on_deleted_pet_is_lost a e now :
  editingPet (screen a) = Some e -> Pet.id e <> [] -> valid (screen a) ->
  (forall q, In q (pets a) -> Pet.id q <> Pet.id e) ->
  PetOperationResponse.success
    (fst (PetContextType.updatePet (provide (pets a)) (petData (screen a) now))) = true /\
  dispatch provide a (Submit now) = mkApp (pets a) (cleared (screen a) noFieldErrors None).
Proof.
  intros Ee Hid Hv Hn. destruct (spec_update (pets a) (petData (screen a) now)) as [Hr Hl].
  rewrite Hr. split; [done|]. rewrite (submit_update_eq provide _ e) by done. f_equal.
  eapply replaced_by_absent; [|exact Hl]. by rewrite (petData_id_edit _ e).
Qed.
End ScenarioTheorems.

(** ** Witnesses *)

Lemma fresh_pet_can_be_added_witness :
  exists a', run PetProvider N.ltb (mkApp [rex] (form "Rex" "3" "friendly" (Some rex))) 0
      (leave_edit (form "Rex" "3" "friendly" (Some rex)) ++ type_and_submit (js "Milo") (js "2y") (js "x") 5)
      = Some (a', 5%N) /\
    pets a' = [rex; mkApp_pet "5" "Milo" "2" "x"].
Proof.
  destruct (fresh_pet_can_be_added PetProvider N.ltb
    (mkApp [rex] (form "Rex" "3" "friendly" (Some rex))) 0 (js "Milo") (js "2y") (js "x") 5)
    as (a' & Hr & Hp & _).
  - discriminate.
  - vm_compute. discriminate.
  - discriminate.
  - reflexivity.
  - intros q [<-|[]]. vm_compute. discriminate.
  - exists a'. split; [exact Hr|]. rewrite Hp. reflexivity.
Defined.

Lemma run_registry_bounds_witness :
  (List.length (pets (fst (scenario N.ltb add_rex_milo))) <=
     List.length (pets initApp) + submits add_rex_milo)%nat.
Proof.
  destruct (run_registry_bounds PetProvider N.ltb initApp 0 add_rex_milo
    (fst (scenario N.ltb add_rex_milo)) (snd (scenario N.ltb add_rex_milo))) as [Hu _].
  - vm_compute. reflexivity.
  - exact Hu.
Defined.

Lemma reachable_pets_wf_witness :
  Forall pet_wf (pets (fst (scenario N.ltb add_rex_milo))).
Proof.
  apply (reachable_pets_wf PetProvider N.ltb _ (snd (scenario N.ltb add_rex_milo))).
  apply (run_reachable PetProvider N.ltb initApp 0 add_rex_milo); [constructor|].
  vm_compute. reflexivity.
Defined.

Lemma submit_on_deleted_pet_is_lost_witness :
  let a := fst (scenario N.ltb edit_deleted) in
  dispatch PetProvider a (Submit 2) = mkApp [] (cleared (screen a) noFieldErrors None).
Proof.
  destruct (submit_on_deleted_pet_is_lost PetProvider (fst (scenario N.ltb edit_deleted)) rex1 2)
    as [_ E].
  - vm_compute. reflexivity.
  - discriminate.
  - decide_eval.
  - vm_compute. intros q [].
  - exact E.
Defined.
